(** * Timer Zero: the mark ledger, the timeline builders and the head toggle

    A shallow embedding of the time-keeping logic of the multi-channel
    stopwatch:

    - [Chart]     : [calculateIntervals] of [components/TimelineChart.tsx],
                    once as a pure function and once over an explicit heap
                    of arrays;
    - [Builder]   : the duration-based timeline builder of
                    [components/ImportTimeline.tsx];
    - [OClock]    : the clock-based builder with cutoff timers;
    - [Stopwatch] : the head toggle of the [useStopwatch] hook.

    JavaScript numbers that hold integers are modelled as [Z]. Minute
    counts typed into the duration builder can be of any size, so the sums
    and differences its field handlers form are rounded as doubles
    ([double]); elsewhere the theorems that depend on exact arithmetic
    state the range they hold in. Where the code can meet [NaN] it is
    modelled too: as [None] for the result of [parseInt] in [Builder], as
    the constructor [NaN] of [num] in [OClock]. *)

From Stdlib Require Import ZArith Lia List Bool Sorted Ascii String.
From stdpp Require Import gmap strings list pretty.
Import ListNotations.

Local Open Scope Z_scope.

(** ** Shared helpers *)

Lemma map_same {A : Type} (f : A -> A) (l : list A) :
  (forall x, In x l -> f x = x) -> map f l = l.
Proof.
  induction l as [|a l IH]; intros Hf; simpl.
  - reflexivity.
  - rewrite Hf by (left; reflexivity).
    rewrite IH; [reflexivity|].
    intros x Hx. apply Hf. right. exact Hx.
Qed.

Lemma filter_same {A : Type} (p : A -> bool) (l : list A) :
  (forall x, In x l -> p x = true) -> List.filter p l = l.
Proof.
  induction l as [|a l IH]; intros Hp; simpl.
  - reflexivity.
  - rewrite Hp by (left; reflexivity).
    rewrite IH; [reflexivity|].
    intros x Hx. apply Hp. right. exact Hx.
Qed.

(** ** Sums and differences of integers held in doubles

    A JavaScript number is a binary64 double. Every integer of magnitude up
    to 2^53 is a double; beyond that only multiples of a power of two are.
    [double z] is the double nearest to the integer [z], ties going to the
    even significand: what [a + b] and [a - b] evaluate to when the exact
    result is [z]. (Adding or subtracting a small constant to a finite
    double cannot overflow.) *)

Definition double (z : Z) : Z :=
  let e := Z.log2 (Z.abs z) - 52 in
  if e <=? 0 then z
  else
    let u := 2 ^ e in
    let q := z / u in
    let r := z mod u in
    if 2 * r <? u then q * u
    else if u <? 2 * r then (q + 1) * u
    else if Z.even q then q * u
    else (q + 1) * u.

(** The largest magnitude up to which every integer is a double. *)
Definition exactUpTo : Z := 9007199254740992.

Lemma double_exact (z : Z) : Z.abs z <= exactUpTo -> double z = z.
Proof.
  unfold exactUpTo. intros Hz.
  destruct (Z.eq_dec (Z.abs z) 9007199254740992) as [Heq|Hne].
  - assert (Hcases : z = 9007199254740992 \/ z = - 9007199254740992) by lia.
    destruct Hcases as [-> | ->]; reflexivity.
  - unfold double.
    assert (Hlog : Z.log2 (Z.abs z) - 52 <= 0).
    { destruct (Z.eq_dec z 0) as [-> | Hz0]; [simpl; lia|].
      assert (Hlt : Z.log2 (Z.abs z) < 53).
      { apply Z.log2_lt_pow2; [lia|].
        change (2 ^ 53) with 9007199254740992. lia. }
      lia. }
    destruct (Z.leb_spec (Z.log2 (Z.abs z) - 52) 0); [reflexivity | lia].
Qed.

Lemma double_positive (z : Z) : 1 <= z -> 1 <= double z.
Proof.
  intros Hz. unfold double. rewrite (Z.abs_eq z) by lia.
  destruct (Z.leb_spec (Z.log2 z - 52) 0) as [Hle|Hgt]; [exact Hz|].
  cbv zeta.
  assert (Hu : 2 <= 2 ^ (Z.log2 z - 52)).
  { change 2 with (2 ^ 1) at 1. apply Z.pow_le_mono_r; lia. }
  assert (Hzu : 2 ^ (Z.log2 z - 52) <= z).
  { pose proof (Z.log2_spec z ltac:(lia)) as [Hlow _].
    eapply Z.le_trans; [|exact Hlow].
    apply Z.pow_le_mono_r; lia. }
  assert (Hq : 1 <= z / 2 ^ (Z.log2 z - 52)).
  { apply Z.div_le_lower_bound; lia. }
  set (u := 2 ^ (Z.log2 z - 52)) in *. set (q := z / u) in *.
  repeat match goal with |- context [if ?b then _ else _] => destruct b end;
    nia.
Qed.

(** ** components/TimelineChart.tsx *)

Module Chart.

(** Modelled from the spec: the declaration of [SubChannelMark] lives in
    [@/types]; a mark is [{ action: start | pause, headTimeMs: number }]. *)
Inductive MarkAction : Type := start | pause.

Record SubChannelMark : Type := mkMark {
  action : MarkAction;
  headTimeMs : Z
}.

Record TimelineInterval : Type := mkInterval {
  startMs : Z;
  endMs : Z
}.

Definition isStart (m : SubChannelMark) : bool :=
  match action m with start => true | pause => false end.

Definition isPause (m : SubChannelMark) : bool :=
  match action m with start => false | pause => true end.

(** The two locals of the function: the [intervals] array and
    [startMs : number | null]. *)
Definition LoopState : Type := (list TimelineInterval * option Z)%type.

(** One iteration of [for (const mark of marks)]. *)
Definition loopBody (st : LoopState) (mark : SubChannelMark) : LoopState :=
  let '(intervals, open) := st in
  match action mark with
  | start => (intervals, Some (headTimeMs mark))
  | pause =>
      match open with
      | Some s => (intervals ++ [mkInterval s (headTimeMs mark)], None)
      | None => (intervals, open)
      end
  end.

(** The code after the loop. *)
Definition finish (st : LoopState) (currentlyRunning : bool)
    (headElapsedMs : Z) : list TimelineInterval :=
  let '(intervals, open) := st in
  match currentlyRunning, open with
  | true, Some s => intervals ++ [mkInterval s headElapsedMs]
  | _, _ => intervals
  end.

Definition calculateIntervals (marks : list SubChannelMark)
    (currentlyRunning : bool) (headElapsedMs : Z) : list TimelineInterval :=
  finish (fold_left loopBody marks ([], None)) currentlyRunning headElapsedMs.

(** *** The scan of the specification

    [scan open marks running h] is the left-to-right scan as the
    specification words it: what the marks still to be read contribute when
    the open start is [open]. *)
Fixpoint scan (open : option Z) (marks : list SubChannelMark)
    (running : bool) (h : Z) : list TimelineInterval :=
  match marks with
  | [] =>
      match open with
      | Some s => if running then [mkInterval s h] else []
      | None => []
      end
  | m :: rest =>
      match action m with
      | start => scan (Some (headTimeMs m)) rest running h
      | pause =>
          match open with
          | Some s => mkInterval s (headTimeMs m) :: scan None rest running h
          | None => scan None rest running h
          end
      end
  end.

Definition deriveIntervals (marks : list SubChannelMark) (running : bool)
    (h : Z) : list TimelineInterval :=
  scan None marks running h.

(** *** Shapes of mark lists *)

Definition sameAction (a b : SubChannelMark) : bool :=
  match action a, action b with
  | start, start | pause, pause => true
  | _, _ => false
  end.

(** No two consecutive marks have the same action. *)
Fixpoint noRepeat (marks : list SubChannelMark) : bool :=
  match marks with
  | a :: (b :: _) as rest => negb (sameAction a b) && noRepeat rest
  | _ => true
  end.

(** The first mark, when there is one, is a [start]. *)
Definition beginsWithStart (marks : list SubChannelMark) : bool :=
  match marks with
  | [] => true
  | m :: _ => isStart m
  end.

Definition alternates (marks : list SubChannelMark) : bool :=
  beginsWithStart marks && noRepeat marks.

(** The last mark is a [start] (an unmatched one, in an alternating list). *)
Fixpoint endsWithStart (marks : list SubChannelMark) : bool :=
  match marks with
  | [] => false
  | [m] => isStart m
  | _ :: rest => endsWithStart rest
  end.

(** Completed start-to-pause pairs: a [pause] directly after a [start]. *)
Fixpoint completedPairs (marks : list SubChannelMark) : nat :=
  match marks with
  | a :: (b :: _) as rest =>
      ((if isStart a && isPause b then 1 else 0) + completedPairs rest)%nat
  | _ => 0%nat
  end.

(** *** Shapes of interval lists *)

Definition forward (i : TimelineInterval) : Prop := startMs i <= endMs i.

(** Chronological and pairwise non-overlapping: every interval ends before
    any later one starts. *)
Definition chronological (ivs : list TimelineInterval) : Prop :=
  ForallOrdPairs (fun a b => endMs a <= startMs b) ivs.

Definition wellFormed (ivs : list TimelineInterval) : Prop :=
  Forall forward ivs /\ chronological ivs.

(** The timestamps of the marks never decrease along the list. *)
Definition timeOrdered (marks : list SubChannelMark) : Prop :=
  StronglySorted Z.le (map headTimeMs marks).

(** The head's elapsed time now is not before any recorded mark. *)
Definition notBefore (marks : list SubChannelMark) (h : Z) : Prop :=
  Forall (fun m => headTimeMs m <= h) marks.

(** *** The function over a heap of arrays

    The same code with its arrays where JavaScript keeps them: on a heap,
    behind references. [marks] is a reference handed in by the caller;
    [intervals] is allocated by the function and returned. *)

Inductive Elem : Type :=
| EMark (m : SubChannelMark)
| EInterval (i : TimelineInterval).

Abbreviation Heap := (gmap nat (list Elem)).

(** Computations over the heap; [None] is a dangling reference or an
    exhausted step budget. *)
Definition M (A : Type) : Type := Heap -> option (A * Heap).

Definition ret {A : Type} (a : A) : M A := fun σ => Some (a, σ).

Definition bind {A B : Type} (c : M A) (k : A -> M B) : M B :=
  fun σ => match c σ with
           | Some (a, σ') => k a σ'
           | None => None
           end.

Notation "x <~ c ;; k" := (bind c (fun x => k))
  (at level 100, c at next level, right associativity).

(** [const intervals = []]: a fresh, empty array. *)
Definition newArray : M nat :=
  fun σ => let l := fresh (dom σ) in Some (l, <[l := []]> σ).

(** [arr.push(x)] *)
Definition push (arr : nat) (x : Elem) : M unit :=
  fun σ => match σ !! arr with
           | Some xs => Some (tt, <[arr := xs ++ [x]]> σ)
           | None => None
           end.

(** One step of the array iterator: the element at index [i] of the array
    as it is now, or nothing when [i] is past its end. *)
Definition iterNext (arr : nat) (i : nat) : M (option Elem) :=
  fun σ => match σ !! arr with
           | Some xs => Some (xs !! i, σ)
           | None => None
           end.

(** The loop body; an element without an [action] field matches neither
    comparison. *)
Definition bodyM (intervals : nat) (open : option Z) (e : Elem)
    : M (option Z) :=
  match e with
  | EMark mark =>
      match action mark with
      | start => ret (Some (headTimeMs mark))
      | pause =>
          match open with
          | Some s =>
              _ <~ push intervals (EInterval (mkInterval s (headTimeMs mark)));;
              ret None
          | None => ret open
          end
      end
  | EInterval _ => ret open
  end.

(** [for (const mark of marks)], from index [i] on, within [fuel] steps. *)
Fixpoint forOf (fuel : nat) (marks : nat) (i : nat) (intervals : nat)
    (open : option Z) : M (option Z) :=
  match fuel with
  | O => fun _ => None
  | S fuel' =>
      e <~ iterNext marks i;;
      match e with
      | None => ret open
      | Some el =>
          open' <~ bodyM intervals open el;;
          forOf fuel' marks (S i) intervals open'
      end
  end.

Definition calculateIntervalsM (fuel : nat) (marks : nat)
    (currentlyRunning : bool) (headElapsedMs : Z) : M nat :=
  intervals <~ newArray;;
  open <~ forOf fuel marks 0 intervals None;;
  _ <~ match currentlyRunning, open with
       | true, Some s => push intervals (EInterval (mkInterval s headElapsedMs))
       | _, _ => ret tt
       end;;
  ret intervals.

(** *** Bookkeeping for the proofs about the scan *)

(** The lower bound the next timestamp has to respect: the open start when
    there is one, the end of the last closed interval otherwise. *)
Definition floorOf (open : option Z) (lo : Z) : Z :=
  match open with Some s => s | None => lo end.

(** The interval a leading [pause] closes when a start is already open. *)
Definition closesOpen (open : option Z) (marks : list SubChannelMark) : nat :=
  match open, marks with
  | Some _, m :: _ => if isPause m then 1%nat else 0%nat
  | _, _ => 0%nat
  end.

(** Whether a start is still open once all marks are read. *)
Definition openAtEnd (open : option Z) (marks : list SubChannelMark) : bool :=
  match marks with
  | [] => match open with Some _ => true | None => false end
  | _ => endsWithStart marks
  end.

(** *** The loop against the scan *)

Lemma fold_loopBody_scan (marks : list SubChannelMark) :
  forall (acc : list TimelineInterval) (open : option Z) (r : bool) (h : Z),
    finish (fold_left loopBody marks (acc, open)) r h
    = acc ++ scan open marks r h.
Proof.
  induction marks as [|m rest IH]; intros acc open r h.
  - simpl. destruct r, open; simpl; try reflexivity;
      rewrite app_nil_r; reflexivity.
  - cbn [fold_left scan]. unfold loopBody at 2.
    destruct (action m).
    + apply IH.
    + destruct open as [s|].
      * rewrite IH. rewrite <- app_assoc. reflexivity.
      * apply IH.
Qed.

Lemma calculateIntervals_scan marks r h :
  calculateIntervals marks r h = scan None marks r h.
Proof. unfold calculateIntervals. apply (fold_loopBody_scan marks []). Qed.

(** C1: for every mark list, running flag and head-elapsed value,
    [calculateIntervals] returns exactly the list of the left-to-right scan
    of the specification: a [start] opens (or re-opens) at its time, a
    [pause] seen while a start is open closes one interval, a trailing open
    start yields a last interval up to the head's elapsed time when the
    channel is running and nothing when it is not. *)
Theorem calculateIntervals_is_deriveIntervals :
  forall (marks : list SubChannelMark) (currentlyRunning : bool) (h : Z),
    calculateIntervals marks currentlyRunning h
    = deriveIntervals marks currentlyRunning h.
Proof.
  intros marks r h. unfold deriveIntervals, calculateIntervals.
  rewrite fold_loopBody_scan. reflexivity.
Qed.

(** *** Order of the derived intervals *)

Lemma scan_ordered (marks : list SubChannelMark) :
  forall (open : option Z) (lo : Z) (r : bool) (h : Z),
    lo <= floorOf open lo ->
    Forall (fun m => floorOf open lo <= headTimeMs m) marks ->
    timeOrdered marks ->
    (r = true -> floorOf open lo <= h /\ notBefore marks h) ->
    Forall (fun i => lo <= startMs i /\ forward i) (scan open marks r h)
    /\ chronological (scan open marks r h).
Proof.
  unfold timeOrdered, notBefore, chronological, forward.
  induction marks as [|m rest IH]; intros open lo r h Hlo Hge Hsorted Hh.
  - simpl. destruct open as [s|]; [destruct r|]; simpl in *.
    + destruct (Hh eq_refl) as [Hs _].
      split; [repeat constructor; simpl; lia | repeat constructor].
    + split; constructor.
    + split; constructor.
  - simpl in Hsorted. apply StronglySorted_inv in Hsorted.
    destruct Hsorted as [Hsorted Hfirst].
    rewrite Forall_map in Hfirst.
    apply Forall_cons_iff in Hge. destruct Hge as [Hm Hge].
    assert (Hh' : r = true -> headTimeMs m <= h /\ Forall (fun x => headTimeMs x <= h) rest).
    { intros Hr. destruct (Hh Hr) as [_ Hall].
      apply Forall_cons_iff in Hall. exact Hall. }
    cbn [scan]. destruct (action m) eqn:Hact.
    + (* a start re-opens at its own time *)
      assert (Hlom : lo <= headTimeMs m) by lia.
      apply (IH (Some (headTimeMs m)) lo r h); simpl.
      * exact Hlom.
      * exact Hfirst.
      * exact Hsorted.
      * intros Hr. destruct (Hh' Hr). split; assumption.
    + assert (Hrest : Forall (fun i => headTimeMs m <= startMs i
                                       /\ startMs i <= endMs i)
                             (scan None rest r h)
                      /\ ForallOrdPairs (fun a b => endMs a <= startMs b)
                                        (scan None rest r h)).
      { apply (IH None (headTimeMs m) r h); simpl.
        - lia.
        - exact Hfirst.
        - exact Hsorted.
        - intros Hr. destruct (Hh' Hr). split; assumption. }
      destruct Hrest as [Hall Hchron].
      destruct open as [s|]; simpl in *.
      * (* a pause closes [s, headTimeMs m] *)
        split.
        -- constructor; [simpl; lia|].
           eapply List.Forall_impl; [|exact Hall]. simpl. intros i Hi. lia.
        -- constructor; [|exact Hchron].
           eapply List.Forall_impl; [|exact Hall]. simpl. intros i Hi. lia.
      * (* a pause with nothing open is skipped *)
        split; [|exact Hchron].
        eapply List.Forall_impl; [|exact Hall]. simpl. intros i Hi. lia.
Qed.

(** C2, as stated, fails: alternation alone does not order the timestamps.
    The marks [start@10; pause@5] alternate and yield the interval
    [10, 5]. *)
Lemma alternating_marks_backward_interval :
  ~ (forall (marks : list SubChannelMark) (currentlyRunning : bool) (h : Z),
        alternates marks = true ->
        wellFormed (calculateIntervals marks currentlyRunning h)).
Proof.
  intros H.
  specialize (H [mkMark start 10; mkMark pause 5] false 0 eq_refl).
  destruct H as [Hfw _]. cbv in Hfw.
  apply Forall_inv in Hfw. apply Hfw. reflexivity.
Qed.

(** C2 (amended): for every alternating mark list whose timestamps never
    decrease along the list, and every head-elapsed value that, when the
    channel is running, is not before any mark, every derived interval has
    [endMs >= startMs] and the intervals are in chronological order and
    pairwise non-overlapping. *)
Theorem calculateIntervals_wellFormed :
  forall (marks : list SubChannelMark) (currentlyRunning : bool) (h : Z),
    alternates marks = true ->
    timeOrdered marks ->
    (currentlyRunning = true -> notBefore marks h) ->
    wellFormed (calculateIntervals marks currentlyRunning h).
Proof.
  intros marks r h _ Hsorted Hh.
  rewrite calculateIntervals_scan.
  pose (lo := match marks with [] => h | m :: _ => headTimeMs m end).
  destruct (scan_ordered marks None lo r h) as [Hall Hchron].
  - simpl. lia.
  - simpl. subst lo. destruct marks as [|m rest]; [constructor|].
    constructor; [lia|].
    unfold timeOrdered in Hsorted. simpl in Hsorted.
    apply StronglySorted_inv in Hsorted. destruct Hsorted as [_ Hfirst].
    rewrite Forall_map in Hfirst. exact Hfirst.
  - exact Hsorted.
  - intros Hr. simpl. split; [|exact (Hh Hr)].
    subst lo. destruct marks as [|m rest]; [lia|].
    specialize (Hh Hr). apply Forall_inv in Hh. exact Hh.
  - split; [|exact Hchron].
    eapply List.Forall_impl; [|exact Hall]. simpl. intros i [_ Hi]. exact Hi.
Qed.

Lemma calculateIntervals_wellFormed_witness :
  wellFormed (calculateIntervals
                [mkMark start 30000; mkMark pause 90000; mkMark start 100000]
                true 120000).
Proof.
  apply calculateIntervals_wellFormed.
  - reflexivity.
  - unfold timeOrdered. simpl. repeat constructor; lia.
  - intros _. unfold notBefore. repeat constructor; simpl; lia.
Defined.

(** *** Number of derived intervals *)

Lemma scan_length (marks : list SubChannelMark) :
  forall (open : option Z) (r : bool) (h : Z),
    length (scan open marks r h)
    = (closesOpen open marks + completedPairs marks
       + (if r && openAtEnd open marks then 1 else 0))%nat.
Proof.
  induction marks as [|m rest IH]; intros open r h.
  - simpl. destruct open, r; reflexivity.
  - destruct m as [[|] t]; cbn [scan action headTimeMs].
    + rewrite IH. destruct rest as [|m' rest'].
      * destruct open, r; reflexivity.
      * cbn. destruct open; cbn; lia.
    + destruct open as [s|]; cbn [length]; rewrite IH;
        (destruct rest as [|m' rest']; [destruct r; reflexivity | cbn; lia]).
Qed.

(** C3: for an alternating mark sequence beginning with a start whose last
    mark is an unmatched start exactly when the channel is running, the
    number of derived intervals is the number of completed start-to-pause
    pairs, plus one when the channel is running. *)
Theorem calculateIntervals_count :
  forall (marks : list SubChannelMark) (currentlyRunning : bool) (h : Z),
    alternates marks = true ->
    endsWithStart marks = currentlyRunning ->
    length (calculateIntervals marks currentlyRunning h)
    = (completedPairs marks + (if currentlyRunning then 1 else 0))%nat.
Proof.
  intros marks r h _ Hlast.
  rewrite calculateIntervals_scan, scan_length.
  unfold closesOpen, openAtEnd.
  destruct marks as [|m rest].
  - simpl in *. subst r. reflexivity.
  - rewrite Hlast. destruct r; reflexivity.
Qed.

Lemma calculateIntervals_count_witness :
  length (calculateIntervals
            [mkMark start 0; mkMark pause 5; mkMark start 7] true 9)
  = (completedPairs [mkMark start 0; mkMark pause 5; mkMark start 7] + 1)%nat.
Proof.
  apply (calculateIntervals_count
           [mkMark start 0; mkMark pause 5; mkMark start 7] true 9);
    reflexivity.
Defined.

(** *** The heap version against the pure one *)

Lemma forOf_fold (rest : list SubChannelMark) :
  forall (fuel marks intervals : nat) (done : list SubChannelMark)
         (acc : list TimelineInterval) (open : option Z) (σ : Heap),
    marks <> intervals ->
    σ !! marks = Some (EMark <$> (done ++ rest)) ->
    σ !! intervals = Some (EInterval <$> acc) ->
    (length rest < fuel)%nat ->
    forOf fuel marks (length done) intervals open σ
    = Some (snd (fold_left loopBody rest (acc, open)),
            <[intervals := EInterval <$> fst (fold_left loopBody rest (acc, open))]> σ).
Proof.
  induction rest as [|m rest IH];
    intros fuel marks intervals done acc open σ Hne Hmarks Hint Hfuel.
  - destruct fuel as [|fuel]; [simpl in Hfuel; lia|].
    simpl. unfold bind, iterNext. rewrite Hmarks.
    rewrite app_nil_r, list_lookup_fmap.
    rewrite lookup_ge_None_2 by lia. simpl. unfold ret.
    rewrite insert_id by exact Hint. reflexivity.
  - destruct fuel as [|fuel]; [simpl in Hfuel; lia|].
    cbn [forOf fold_left]. unfold bind at 1. unfold iterNext. rewrite Hmarks.
    rewrite list_lookup_fmap, list_lookup_middle by reflexivity.
    cbn [fmap option_fmap option_map].
    assert (Hdone : S (length done) = length (done ++ [m])).
    { rewrite length_app. simpl. lia. }
    assert (Hsplit : done ++ m :: rest = (done ++ [m]) ++ rest).
    { rewrite <- app_assoc. reflexivity. }
    simpl in Hfuel.
    unfold bodyM, loopBody at 2 4. destruct (action m).
    + unfold bind, ret. rewrite Hdone.
      apply IH; try assumption; [congruence | lia].
    + destruct open as [s|].
      * unfold bind, push, ret. rewrite Hint. rewrite Hdone.
        rewrite (IH fuel marks intervals (done ++ [m])
                    (acc ++ [mkInterval s (headTimeMs m)]) None
                    (<[intervals := (EInterval <$> acc)
                         ++ [EInterval (mkInterval s (headTimeMs m))]]> σ)).
        -- rewrite insert_insert_eq. reflexivity.
        -- exact Hne.
        -- rewrite lookup_insert_ne by congruence. congruence.
        -- rewrite lookup_insert_eq, fmap_app. reflexivity.
        -- lia.
      * unfold bind, ret. rewrite Hdone.
        apply IH; try assumption; [congruence | lia].
Qed.

Lemma calculateIntervalsM_run (fuel marks : nat) (ms : list SubChannelMark)
    (r : bool) (h : Z) (σ : Heap) :
  σ !! marks = Some (EMark <$> ms) ->
  (length ms < fuel)%nat ->
  calculateIntervalsM fuel marks r h σ
  = Some (fresh (dom σ),
          <[fresh (dom σ) := EInterval <$> calculateIntervals ms r h]> σ).
Proof.
  intros Hmarks Hfuel.
  assert (Hfresh : σ !! fresh (dom σ) = None).
  { apply not_elem_of_dom. apply is_fresh. }
  assert (Hne : marks <> fresh (dom σ)).
  { intros Heq. rewrite <- Heq in Hfresh. congruence. }
  unfold calculateIntervalsM, bind at 1, newArray. cbv zeta.
  unfold bind at 1.
  rewrite (forOf_fold ms fuel marks (fresh (dom σ)) [] [] None
             (<[fresh (dom σ) := []]> σ)); try assumption.
  - unfold calculateIntervals, finish.
    destruct (fold_left loopBody ms ([], None)) as [ivs open]. simpl.
    destruct r, open as [s|]; unfold bind, push, ret;
      rewrite ?lookup_insert_eq, ?insert_insert_eq;
      rewrite ?insert_insert_eq, ?fmap_app; reflexivity.
  - rewrite lookup_insert_ne by congruence. exact Hmarks.
  - rewrite lookup_insert_eq. reflexivity.
Qed.

(** C9: [calculateIntervals] is deterministic and free of side effects.
    Run on any two heaps that hold the same marks behind the given
    references, with the same flag and head-elapsed value, the two calls
    return arrays with equal contents (the list the pure function
    computes); the array is freshly allocated, and every array that existed
    before the call, the marks array included, is left as it was. *)
Theorem calculateIntervals_deterministic_pure :
  forall (σ1 σ2 : Heap) (marks1 marks2 : nat) (ms : list SubChannelMark)
         (currentlyRunning : bool) (h : Z) (fuel1 fuel2 : nat),
    σ1 !! marks1 = Some (EMark <$> ms) ->
    σ2 !! marks2 = Some (EMark <$> ms) ->
    (length ms < fuel1)%nat ->
    (length ms < fuel2)%nat ->
    exists (res1 res2 : nat) (σ1' σ2' : Heap),
      calculateIntervalsM fuel1 marks1 currentlyRunning h σ1 = Some (res1, σ1')
      /\ calculateIntervalsM fuel2 marks2 currentlyRunning h σ2 = Some (res2, σ2')
      /\ σ1' !! res1 = Some (EInterval <$> calculateIntervals ms currentlyRunning h)
      /\ σ2' !! res2 = σ1' !! res1
      /\ σ1 !! res1 = None
      /\ σ1' !! marks1 = Some (EMark <$> ms)
      /\ (forall l : nat, l ∈ dom σ1 -> σ1' !! l = σ1 !! l).
Proof.
  intros σ1 σ2 marks1 marks2 ms r h fuel1 fuel2 H1 H2 Hf1 Hf2.
  assert (Hfresh : σ1 !! fresh (dom σ1) = None).
  { apply not_elem_of_dom. apply is_fresh. }
  exists (fresh (dom σ1)), (fresh (dom σ2)).
  eexists. eexists.
  split; [apply (calculateIntervalsM_run _ _ ms); assumption|].
  split; [apply (calculateIntervalsM_run _ _ ms); assumption|].
  rewrite !lookup_insert_eq.
  split; [reflexivity|]. split; [reflexivity|]. split; [exact Hfresh|].
  split.
  - rewrite lookup_insert_ne; [exact H1|]. intros Heq.
    rewrite Heq in Hfresh. congruence.
  - intros l Hl. apply lookup_insert_ne. intros Heq. subst l.
    apply elem_of_dom in Hl. rewrite Hfresh in Hl.
    destruct Hl as [x Hx]. discriminate.
Qed.

Lemma calculateIntervals_deterministic_pure_witness :
  exists (res1 res2 : nat) (σ1' σ2' : Heap),
    calculateIntervalsM 3 0%nat true 120000
      {[ 0%nat := [EMark (mkMark start 30000); EMark (mkMark pause 90000)] ]}
    = Some (res1, σ1')
    /\ calculateIntervalsM 5 7%nat true 120000
         {[ 7%nat := [EMark (mkMark start 30000); EMark (mkMark pause 90000)];
            2%nat := [EInterval (mkInterval 1 2)] ]}
       = Some (res2, σ2')
    /\ σ2' !! res2 = σ1' !! res1
    /\ σ1' !! 0%nat
       = Some [EMark (mkMark start 30000); EMark (mkMark pause 90000)].
Proof.
  destruct (calculateIntervals_deterministic_pure
              {[ 0%nat := [EMark (mkMark start 30000);
                           EMark (mkMark pause 90000)] ]}
              {[ 7%nat := [EMark (mkMark start 30000);
                           EMark (mkMark pause 90000)];
                 2%nat := [EInterval (mkInterval 1 2)] ]}
              0%nat 7%nat [mkMark start 30000; mkMark pause 90000]
              true 120000 3%nat 5%nat)
    as (res1 & res2 & σ1' & σ2' & H1 & H2 & _ & Heq & _ & Hmarks & _).
  - reflexivity.
  - reflexivity.
  - simpl. lia.
  - simpl. lia.
  - exists res1, res2, σ1', σ2'. repeat split; assumption.
Defined.

End Chart.

(** ** components/ImportTimeline.tsx: the duration-based builder *)

Module Builder.

Record TimelineInterval : Type := mkInterval {
  iv_id : string;
  startMin : Z;
  endMin : Z
}.

Record ImportSubChannel : Type := mkSub {
  sub_id : string;
  sub_name : string;
  intervals : list TimelineInterval;
  sub_expanded : bool
}.

Record ImportHeadChannel : Type := mkHead {
  head_id : string;
  head_name : string;
  totalMinutes : Z;
  subChannels : list ImportSubChannel;
  head_expanded : bool
}.

(** [Partial<T>]: the fields an update object carries. *)
Record IntervalUpdates : Type := mkIntervalUpdates {
  upd_iv_id : option string;
  upd_startMin : option Z;
  upd_endMin : option Z
}.

Record SubUpdates : Type := mkSubUpdates {
  upd_sub_id : option string;
  upd_sub_name : option string;
  upd_intervals : option (list TimelineInterval);
  upd_sub_expanded : option bool
}.

Record HeadUpdates : Type := mkHeadUpdates {
  upd_head_id : option string;
  upd_head_name : option string;
  upd_totalMinutes : option Z;
  upd_subChannels : option (list ImportSubChannel);
  upd_head_expanded : option bool
}.

Definition noIntervalUpdates : IntervalUpdates := mkIntervalUpdates None None None.
Definition noSubUpdates : SubUpdates := mkSubUpdates None None None None.
Definition noHeadUpdates : HeadUpdates := mkHeadUpdates None None None None None.

(** [{ ...x, ...updates }] *)
Definition spreadInterval (i : TimelineInterval) (u : IntervalUpdates)
    : TimelineInterval :=
  mkInterval (default (iv_id i) (upd_iv_id u))
             (default (startMin i) (upd_startMin u))
             (default (endMin i) (upd_endMin u)).

Definition spreadSub (s : ImportSubChannel) (u : SubUpdates)
    : ImportSubChannel :=
  mkSub (default (sub_id s) (upd_sub_id u))
        (default (sub_name s) (upd_sub_name u))
        (default (intervals s) (upd_intervals u))
        (default (sub_expanded s) (upd_sub_expanded u)).

Definition spreadHead (h : ImportHeadChannel) (u : HeadUpdates)
    : ImportHeadChannel :=
  mkHead (default (head_id h) (upd_head_id u))
         (default (head_name h) (upd_head_name u))
         (default (totalMinutes h) (upd_totalMinutes u))
         (default (subChannels h) (upd_subChannels u))
         (default (head_expanded h) (upd_head_expanded u)).

Definition withSubChannels (h : ImportHeadChannel)
    (subs : list ImportSubChannel) : ImportHeadChannel :=
  mkHead (head_id h) (head_name h) (totalMinutes h) subs (head_expanded h).

Definition withIntervals (s : ImportSubChannel)
    (ivs : list TimelineInterval) : ImportSubChannel :=
  mkSub (sub_id s) (sub_name s) ivs (sub_expanded s).

(** Decimal rendering of a count inside a template string. *)
Definition showCount (n : nat) : string := pretty n.

(** *** The state transformers of the component

    Each takes the current [headChannels] and returns the value handed to
    [setHeadChannels]. [generateId()] reads the clock and a random source:
    its result is an argument, [newId]. *)

Definition addHeadChannel (headChannels : list ImportHeadChannel)
    (newId : string) : list ImportHeadChannel :=
  headChannels
  ++ [mkHead newId ("Head " +:+ showCount (length headChannels + 1))
             60 [] true].

Definition deleteHeadChannel (headChannels : list ImportHeadChannel)
    (headId : string) : list ImportHeadChannel :=
  List.filter (fun h => negb (String.eqb (head_id h) headId)) headChannels.

Definition updateHeadChannel (headChannels : list ImportHeadChannel)
    (headId : string) (updates : HeadUpdates) : list ImportHeadChannel :=
  map (fun h => if String.eqb (head_id h) headId then spreadHead h updates
                else h)
      headChannels.

Definition toggleHeadExpand (headChannels : list ImportHeadChannel)
    (headId : string) : list ImportHeadChannel :=
  map (fun h => if String.eqb (head_id h) headId
                then mkHead (head_id h) (head_name h) (totalMinutes h)
                            (subChannels h) (negb (head_expanded h))
                else h)
      headChannels.

Definition addSubChannel (headChannels : list ImportHeadChannel)
    (headId : string) (newId : string) : list ImportHeadChannel :=
  map (fun h =>
         if negb (String.eqb (head_id h) headId) then h
         else
           let newSub :=
             mkSub newId
                   ("Sub " +:+ showCount (length (subChannels h) + 1))
                   [] true in
           withSubChannels h (subChannels h ++ [newSub]))
      headChannels.

Definition deleteSubChannel (headChannels : list ImportHeadChannel)
    (headId subId : string) : list ImportHeadChannel :=
  map (fun h =>
         if negb (String.eqb (head_id h) headId) then h
         else
           withSubChannels h
             (List.filter (fun s => negb (String.eqb (sub_id s) subId))
                          (subChannels h)))
      headChannels.

Definition updateSubChannel (headChannels : list ImportHeadChannel)
    (headId subId : string) (updates : SubUpdates)
    : list ImportHeadChannel :=
  map (fun h =>
         if negb (String.eqb (head_id h) headId) then h
         else
           withSubChannels h
             (map (fun s => if String.eqb (sub_id s) subId
                            then spreadSub s updates else s)
                  (subChannels h)))
      headChannels.

Definition toggleSubExpand (headChannels : list ImportHeadChannel)
    (headId subId : string) : list ImportHeadChannel :=
  map (fun h =>
         if negb (String.eqb (head_id h) headId) then h
         else
           withSubChannels h
             (map (fun s => if String.eqb (sub_id s) subId
                            then mkSub (sub_id s) (sub_name s) (intervals s)
                                       (negb (sub_expanded s))
                            else s)
                  (subChannels h)))
      headChannels.

(** The end of the last interval, or 0 when there is none. *)
Definition lastEnd (ivs : list TimelineInterval) : Z :=
  match last ivs with
  | Some i => endMin i
  | None => 0
  end.

Definition addInterval (headChannels : list ImportHeadChannel)
    (headId subId : string) (newId : string) : list ImportHeadChannel :=
  map (fun h =>
         if negb (String.eqb (head_id h) headId) then h
         else
           withSubChannels h
             (map (fun s =>
                     if negb (String.eqb (sub_id s) subId) then s
                     else
                       let newInterval :=
                         mkInterval newId (lastEnd (intervals s))
                           (Z.min (lastEnd (intervals s) + 5)
                                  (totalMinutes h)) in
                       withIntervals s (intervals s ++ [newInterval]))
                  (subChannels h)))
      headChannels.

Definition deleteInterval (headChannels : list ImportHeadChannel)
    (headId subId intervalId : string) : list ImportHeadChannel :=
  map (fun h =>
         if negb (String.eqb (head_id h) headId) then h
         else
           withSubChannels h
             (map (fun s =>
                     if negb (String.eqb (sub_id s) subId) then s
                     else
                       withIntervals s
                         (List.filter
                            (fun i => negb (String.eqb (iv_id i) intervalId))
                            (intervals s)))
                  (subChannels h)))
      headChannels.

Definition updateInterval (headChannels : list ImportHeadChannel)
    (headId subId intervalId : string) (updates : IntervalUpdates)
    : list ImportHeadChannel :=
  map (fun h =>
         if negb (String.eqb (head_id h) headId) then h
         else
           withSubChannels h
             (map (fun s =>
                     if negb (String.eqb (sub_id s) subId) then s
                     else
                       withIntervals s
                         (map (fun i => if String.eqb (iv_id i) intervalId
                                        then spreadInterval i updates else i)
                              (intervals s)))
                  (subChannels h)))
      headChannels.

(** *** The input handlers

    [parseInt] yields an integer or [NaN] ([None]); [x || d] falls back to
    [d] when [x] is [NaN] or [0]. *)
Definition orElse (parsed : option Z) (d : Z) : Z :=
  match parsed with
  | None => d
  | Some 0 => d
  | Some v => v
  end.

(** [onChange] of the head's minutes field. *)
Definition onChangeTotalMinutes (headChannels : list ImportHeadChannel)
    (head : ImportHeadChannel) (parsed : option Z) : list ImportHeadChannel :=
  updateHeadChannel headChannels (head_id head)
    (mkHeadUpdates None None (Some (Z.max 1 (orElse parsed 1))) None None).

(** [onChange] of an interval's start field; [interval.endMin - 1] is a
    difference of doubles. *)
Definition onChangeStartMin (headChannels : list ImportHeadChannel)
    (head : ImportHeadChannel) (sub : ImportSubChannel)
    (interval : TimelineInterval) (parsed : option Z)
    : list ImportHeadChannel :=
  updateInterval headChannels (head_id head) (sub_id sub) (iv_id interval)
    (mkIntervalUpdates None
       (Some (Z.max 0 (Z.min (orElse parsed 0)
                             (double (endMin interval - 1)))))
       None).

(** [onChange] of an interval's end field; [interval.startMin + 1] is a sum
    of doubles. *)
Definition onChangeEndMin (headChannels : list ImportHeadChannel)
    (head : ImportHeadChannel) (sub : ImportSubChannel)
    (interval : TimelineInterval) (parsed : option Z)
    : list ImportHeadChannel :=
  updateInterval headChannels (head_id head) (sub_id sub) (iv_id interval)
    (mkIntervalUpdates None None
       (Some (Z.max (double (startMin interval + 1))
                    (Z.min (orElse parsed 1) (totalMinutes head))))).

(** *** Targets of an operation *)

Definition hasHead (headChannels : list ImportHeadChannel)
    (headId : string) : bool :=
  existsb (fun h => String.eqb (head_id h) headId) headChannels.

Definition hasSub (headChannels : list ImportHeadChannel)
    (headId subId : string) : bool :=
  existsb (fun h => String.eqb (head_id h) headId
                    && existsb (fun s => String.eqb (sub_id s) subId)
                               (subChannels h))
          headChannels.

Definition hasInterval (headChannels : list ImportHeadChannel)
    (headId subId intervalId : string) : bool :=
  existsb (fun h =>
             String.eqb (head_id h) headId
             && existsb (fun s =>
                           String.eqb (sub_id s) subId
                           && existsb (fun i => String.eqb (iv_id i) intervalId)
                                      (intervals s))
                        (subChannels h))
          headChannels.

(** The operations that address a channel or an interval by id. *)
Inductive Operation : Type :=
| OpAddSubChannel (headId newId : string)
| OpDeleteSubChannel (headId subId : string)
| OpUpdateSubChannel (headId subId : string) (updates : SubUpdates)
| OpAddInterval (headId subId newId : string)
| OpDeleteInterval (headId subId intervalId : string)
| OpUpdateInterval (headId subId intervalId : string)
                   (updates : IntervalUpdates)
| OpUpdateHeadChannel (headId : string) (updates : HeadUpdates).

Definition perform (headChannels : list ImportHeadChannel)
    (op : Operation) : list ImportHeadChannel :=
  match op with
  | OpAddSubChannel headId newId => addSubChannel headChannels headId newId
  | OpDeleteSubChannel headId subId =>
      deleteSubChannel headChannels headId subId
  | OpUpdateSubChannel headId subId updates =>
      updateSubChannel headChannels headId subId updates
  | OpAddInterval headId subId newId =>
      addInterval headChannels headId subId newId
  | OpDeleteInterval headId subId intervalId =>
      deleteInterval headChannels headId subId intervalId
  | OpUpdateInterval headId subId intervalId updates =>
      updateInterval headChannels headId subId intervalId updates
  | OpUpdateHeadChannel headId updates =>
      updateHeadChannel headChannels headId updates
  end.

(** Whether what the operation addresses exists: the head for operations on
    a head, the sub channel under that head for operations on a sub channel,
    the interval under both for operations on an interval. *)
Definition targetPresent (headChannels : list ImportHeadChannel)
    (op : Operation) : bool :=
  match op with
  | OpAddSubChannel headId _ => hasHead headChannels headId
  | OpUpdateHeadChannel headId _ => hasHead headChannels headId
  | OpDeleteSubChannel headId subId => hasSub headChannels headId subId
  | OpUpdateSubChannel headId subId _ => hasSub headChannels headId subId
  | OpAddInterval headId subId _ => hasSub headChannels headId subId
  | OpDeleteInterval headId subId intervalId =>
      hasInterval headChannels headId subId intervalId
  | OpUpdateInterval headId subId intervalId _ =>
      hasInterval headChannels headId subId intervalId
  end.

(** *** What the form shows and what the user can do to it *)

(** The interval rendered at position [k] of sub channel [j] of head [i],
    with the head and sub channel its handlers close over. *)
Definition rendered (headChannels : list ImportHeadChannel) (i j k : nat)
    : option (ImportHeadChannel * ImportSubChannel * TimelineInterval) :=
  match nth_error headChannels i with
  | Some head =>
      match nth_error (subChannels head) j with
      | Some sub =>
          match nth_error (intervals sub) k with
          | Some interval => Some (head, sub, interval)
          | None => None
          end
      | None => None
      end
  | None => None
  end.

Inductive Event : Type :=
| AddHead (newId : string)
| DeleteHead (headId : string)
| RenameHead (headId name : string)
| EditTotalMinutes (i : nat) (parsed : option Z)
| ToggleHead (headId : string)
| AddSub (headId newId : string)
| DeleteSub (headId subId : string)
| RenameSub (headId subId name : string)
| ToggleSub (headId subId : string)
| AddInterval (headId subId newId : string)
| DeleteInterval (headId subId intervalId : string)
| EditStartMin (i j k : nat) (parsed : option Z)
| EditEndMin (i j k : nat) (parsed : option Z).

(** An event on a field that is not on screen cannot happen; the state
    stays. *)
Definition handle (hs : list ImportHeadChannel) (e : Event)
    : list ImportHeadChannel :=
  match e with
  | AddHead newId => addHeadChannel hs newId
  | DeleteHead headId => deleteHeadChannel hs headId
  | RenameHead headId name =>
      updateHeadChannel hs headId
        (mkHeadUpdates None (Some name) None None None)
  | EditTotalMinutes i parsed =>
      match nth_error hs i with
      | Some head => onChangeTotalMinutes hs head parsed
      | None => hs
      end
  | ToggleHead headId => toggleHeadExpand hs headId
  | AddSub headId newId => addSubChannel hs headId newId
  | DeleteSub headId subId => deleteSubChannel hs headId subId
  | RenameSub headId subId name =>
      updateSubChannel hs headId subId
        (mkSubUpdates None (Some name) None None)
  | ToggleSub headId subId => toggleSubExpand hs headId subId
  | AddInterval headId subId newId => addInterval hs headId subId newId
  | DeleteInterval headId subId intervalId =>
      deleteInterval hs headId subId intervalId
  | EditStartMin i j k parsed =>
      match rendered hs i j k with
      | Some (head, sub, interval) =>
          onChangeStartMin hs head sub interval parsed
      | None => hs
      end
  | EditEndMin i j k parsed =>
      match rendered hs i j k with
      | Some (head, sub, interval) =>
          onChangeEndMin hs head sub interval parsed
      | None => hs
      end
  end.

Definition run (hs : list ImportHeadChannel) (events : list Event)
    : list ImportHeadChannel :=
  fold_left handle events hs.

(** *** Structural validity of intervals *)

Definition validInterval (total : Z) (i : TimelineInterval) : Prop :=
  0 <= startMin i /\ startMin i + 1 <= endMin i /\ endMin i <= total.

Definition validHead (h : ImportHeadChannel) : Prop :=
  Forall (fun s => Forall (validInterval (totalMinutes h)) (intervals s))
         (subChannels h).

Definition allValid (hs : list ImportHeadChannel) : Prop :=
  Forall validHead hs.

(** *** Events that keep intervals valid *)

Definition headIds (hs : list ImportHeadChannel) : list string :=
  map head_id hs.

Definition subIds (hs : list ImportHeadChannel) : list string :=
  flat_map (fun h => map sub_id (subChannels h)) hs.

Definition intervalIds (hs : list ImportHeadChannel) : list string :=
  flat_map (fun h => flat_map (fun s => map iv_id (intervals s))
                              (subChannels h))
           hs.

Definition isFresh (newId : string) (ids : list string) : bool :=
  negb (existsb (String.eqb newId) ids).

(** Every sub channel the call addresses still has room after its last
    interval. *)
Definition hasRoom (hs : list ImportHeadChannel) (headId subId : string)
    : bool :=
  forallb (fun h =>
             negb (String.eqb (head_id h) headId)
             || forallb (fun s =>
                           negb (String.eqb (sub_id s) subId)
                           || (lastEnd (intervals s) <? totalMinutes h))
                        (subChannels h))
          hs.

(** No interval of the head ends after [total]. *)
Definition coversIntervals (head : ImportHeadChannel) (total : Z) : bool :=
  forallb (fun s => forallb (fun i => endMin i <=? total) (intervals s))
          (subChannels head).

Definition admissible (hs : list ImportHeadChannel) (e : Event) : bool :=
  match e with
  | AddHead newId => isFresh newId (headIds hs)
  | AddSub _ newId => isFresh newId (subIds hs)
  | AddInterval headId subId newId =>
      isFresh newId (intervalIds hs) && hasRoom hs headId subId
  | EditTotalMinutes i parsed =>
      match nth_error hs i with
      | Some head =>
          coversIntervals head (Z.max 1 (orElse parsed 1))
          && (Z.max 1 (orElse parsed 1) <=? exactUpTo)
      | None => true
      end
  | _ => true
  end.

Fixpoint admissibleRun (hs : list ImportHeadChannel) (events : list Event)
    : bool :=
  match events with
  | [] => true
  | e :: rest => admissible hs e && admissibleRun (handle hs e) rest
  end.

(** The invariant behind validity: ids identify, totals are positive and
    within the range in which every minute count is a double, intervals
    are valid. *)
Definition subOk (total : Z) (s : ImportSubChannel) : Prop :=
  List.NoDup (map iv_id (intervals s))
  /\ Forall (validInterval total) (intervals s).

Definition headOk (h : ImportHeadChannel) : Prop :=
  1 <= totalMinutes h <= exactUpTo
  /\ List.NoDup (map sub_id (subChannels h))
  /\ Forall (subOk (totalMinutes h)) (subChannels h).

Definition Inv (hs : list ImportHeadChannel) : Prop :=
  List.NoDup (headIds hs) /\ Forall headOk hs.

(** *** Operations on absent targets *)

Lemma existsb_false_In {A : Type} (f : A -> bool) (l : list A) (x : A) :
  existsb f l = false -> In x l -> f x = false.
Proof.
  intros H Hin. destruct (f x) eqn:E; [|reflexivity].
  assert (Ht : existsb f l = true) by (apply existsb_exists; eauto).
  congruence.
Qed.

Lemma withSubChannels_id (h : ImportHeadChannel) :
  withSubChannels h (subChannels h) = h.
Proof. destruct h; reflexivity. Qed.

Lemma withIntervals_id (s : ImportSubChannel) :
  withIntervals s (intervals s) = s.
Proof. destruct s; reflexivity. Qed.

(** A head-level rewrite that leaves every addressed head as it is. *)
Lemma map_heads_same (hs : list ImportHeadChannel) (headId : string)
    (g : ImportHeadChannel -> ImportHeadChannel) :
  (forall h, In h hs -> String.eqb (head_id h) headId = true -> g h = h) ->
  map (fun h => if negb (String.eqb (head_id h) headId) then h else g h) hs
  = hs.
Proof.
  intros Hg. apply map_same. intros h Hin.
  destruct (String.eqb (head_id h) headId) eqn:E; simpl;
    [apply Hg; assumption | reflexivity].
Qed.

Lemma map_subs_same (h : ImportHeadChannel) (subId : string)
    (g : ImportSubChannel -> ImportSubChannel) :
  (forall s, In s (subChannels h) ->
             String.eqb (sub_id s) subId = true -> g s = s) ->
  withSubChannels h
    (map (fun s => if negb (String.eqb (sub_id s) subId) then s else g s)
         (subChannels h))
  = h.
Proof.
  intros Hg. rewrite map_same; [apply withSubChannels_id|].
  intros s Hin.
  destruct (String.eqb (sub_id s) subId) eqn:E; simpl;
    [apply Hg; assumption | reflexivity].
Qed.

Lemma hasSub_false (hs : list ImportHeadChannel) (headId subId : string)
    (h : ImportHeadChannel) (s : ImportSubChannel) :
  hasSub hs headId subId = false ->
  In h hs -> String.eqb (head_id h) headId = true ->
  In s (subChannels h) -> String.eqb (sub_id s) subId = false.
Proof.
  intros Habs Hh Eh Hs.
  apply (existsb_false_In _ _ h) in Habs; [|exact Hh].
  cbv beta in Habs. rewrite Eh in Habs. simpl in Habs.
  apply (existsb_false_In _ _ s Habs Hs).
Qed.

Lemma hasInterval_false (hs : list ImportHeadChannel)
    (headId subId intervalId : string)
    (h : ImportHeadChannel) (s : ImportSubChannel) (i : TimelineInterval) :
  hasInterval hs headId subId intervalId = false ->
  In h hs -> String.eqb (head_id h) headId = true ->
  In s (subChannels h) -> String.eqb (sub_id s) subId = true ->
  In i (intervals s) -> String.eqb (iv_id i) intervalId = false.
Proof.
  intros Habs Hh Eh Hs Es Hi.
  apply (existsb_false_In _ _ h) in Habs; [|exact Hh].
  cbv beta in Habs. rewrite Eh in Habs. simpl in Habs.
  apply (existsb_false_In _ _ s) in Habs; [|exact Hs].
  cbv beta in Habs. rewrite Es in Habs. simpl in Habs.
  apply (existsb_false_In _ _ i Habs Hi).
Qed.

(** C7: an operation that addresses a head id, a head and sub id, or an
    interval id that the collection does not contain returns the collection
    unchanged. *)
Theorem absent_target_is_noop :
  forall (headChannels : list ImportHeadChannel) (op : Operation),
    targetPresent headChannels op = false ->
    perform headChannels op = headChannels.
Proof.
  intros hs op Habs. destruct op; simpl in *.
  - (* addSubChannel *)
    unfold addSubChannel. apply map_heads_same. intros h Hin E.
    rewrite (existsb_false_In _ _ h Habs Hin) in E. discriminate.
  - (* deleteSubChannel *)
    unfold deleteSubChannel. apply map_heads_same. intros h Hin E.
    rewrite filter_same; [apply withSubChannels_id|].
    intros s Hs. rewrite (hasSub_false hs headId subId h s); auto.
  - (* updateSubChannel *)
    unfold updateSubChannel. apply map_heads_same. intros h Hin E.
    rewrite map_same; [apply withSubChannels_id|].
    intros s Hs. rewrite (hasSub_false hs headId subId h s); auto.
  - (* addInterval *)
    unfold addInterval. apply map_heads_same. intros h Hin E.
    apply map_subs_same. intros s Hs Es.
    rewrite (hasSub_false hs headId subId h s) in Es; auto. discriminate.
  - (* deleteInterval *)
    unfold deleteInterval. apply map_heads_same. intros h Hin E.
    apply map_subs_same. intros s Hs Es.
    rewrite filter_same; [apply withIntervals_id|].
    intros i Hi.
    rewrite (hasInterval_false hs headId subId intervalId h s i); auto.
  - (* updateInterval *)
    unfold updateInterval. apply map_heads_same. intros h Hin E.
    apply map_subs_same. intros s Hs Es.
    rewrite map_same; [apply withIntervals_id|].
    intros i Hi.
    rewrite (hasInterval_false hs headId subId intervalId h s i); auto.
  - (* updateHeadChannel *)
    unfold updateHeadChannel. apply map_same. intros h Hin.
    rewrite (existsb_false_In _ _ h Habs Hin). reflexivity.
Qed.

Lemma absent_target_is_noop_witness :
  perform [mkHead "h" "Head 1" 60 [mkSub "s" "Sub 1" [] true] true]
          (OpAddInterval "h" "gone" "n")
  = [mkHead "h" "Head 1" 60 [mkSub "s" "Sub 1" [] true] true].
Proof. apply absent_target_is_noop. reflexivity. Defined.

(** *** Editing the end of an interval *)

Lemma rendered_Some (hs : list ImportHeadChannel) (i j k : nat)
    (head : ImportHeadChannel) (sub : ImportSubChannel)
    (interval : TimelineInterval) :
  rendered hs i j k = Some (head, sub, interval) ->
  nth_error hs i = Some head
  /\ nth_error (subChannels head) j = Some sub
  /\ nth_error (intervals sub) k = Some interval.
Proof.
  unfold rendered. intros H.
  destruct (nth_error hs i) as [h|]; [|discriminate].
  destruct (nth_error (subChannels h) j) as [s0|] eqn:Es; [|discriminate].
  destruct (nth_error (intervals s0) k) as [i0|] eqn:Ei; [|discriminate].
  inversion H; subst. auto.
Qed.

(** C5, as stated, fails beyond the range in which every integer is a
    double: there [startMin + 1] is rounded. On a head of 2^54 minutes, an
    interval brought to start 2^53 and end 2^53 + 2 by typing into its
    fields gets, when 5 is typed as its end, the end 2^53, its own start,
    and not 2^53 + 1. *)
Lemma end_edit_beyond_exact_integers :
  ~ (forall (hs : list ImportHeadChannel) (i j k : nat)
            (head : ImportHeadChannel) (sub : ImportSubChannel)
            (interval : TimelineInterval) (parsed : option Z),
        rendered hs i j k = Some (head, sub, interval) ->
        exists (head' : ImportHeadChannel) (sub' : ImportSubChannel)
               (interval' : TimelineInterval),
          rendered (onChangeEndMin hs head sub interval parsed) i j k
          = Some (head', sub', interval')
          /\ endMin interval'
             = Z.max (startMin interval + 1)
                     (Z.min (orElse parsed 1) (totalMinutes head))).
Proof.
  intros H.
  assert (Hr : rendered
                 (run [] [AddHead "h1";
                          EditTotalMinutes 0 (Some 18014398509481984);
                          AddSub "h1" "s1"; AddInterval "h1" "s1" "i1";
                          EditEndMin 0 0 0 (Some 9007199254740994);
                          EditStartMin 0 0 0 (Some 9007199254740992)])
                 0 0 0
               = Some (mkHead "h1" "Head 1" 18014398509481984
                         [mkSub "s1" "Sub 1"
                            [mkInterval "i1" 9007199254740992
                                        9007199254740994] true] true,
                       mkSub "s1" "Sub 1"
                         [mkInterval "i1" 9007199254740992 9007199254740994]
                         true,
                       mkInterval "i1" 9007199254740992 9007199254740994)).
  { vm_compute. reflexivity. }
  destruct (H _ 0%nat 0%nat 0%nat _ _ _ (Some 5) Hr)
    as (head' & sub' & interval' & Hafter & Hend).
  vm_compute in Hafter. inversion Hafter; subst interval'.
  vm_compute in Hend. discriminate Hend.
Qed.

(** C5 (amended): editing the end field of a rendered interval whose start
    has a magnitude below 2^53, with the attempted value [v] (the parsed
    integer, 1 in its place when the field does not parse), stores
    [max (startMin + 1) (min v totalMinutes)] as the interval's end and
    leaves its start, its id and the head's total as they were. For
    intervals with a non-negative start, a parsed 0 (which the code also
    replaces by 1) stores the same end as the formula taken at 0. With
    start 10 on a 60-minute head, attempting 5 stores 11. *)
Theorem onChangeEndMin_clamps :
  forall (hs : list ImportHeadChannel) (i j k : nat)
         (head : ImportHeadChannel) (sub : ImportSubChannel)
         (interval : TimelineInterval) (parsed : option Z),
    rendered hs i j k = Some (head, sub, interval) ->
    Z.abs (startMin interval) < exactUpTo ->
    exists (head' : ImportHeadChannel) (sub' : ImportSubChannel)
           (interval' : TimelineInterval),
      rendered (onChangeEndMin hs head sub interval parsed) i j k
      = Some (head', sub', interval')
      /\ endMin interval'
         = Z.max (startMin interval + 1)
                 (Z.min (orElse parsed 1) (totalMinutes head))
      /\ (0 <= startMin interval ->
          endMin interval'
          = Z.max (startMin interval + 1)
                  (Z.min (default 1 parsed) (totalMinutes head)))
      /\ startMin interval' = startMin interval
      /\ iv_id interval' = iv_id interval
      /\ totalMinutes head' = totalMinutes head
      /\ (startMin interval = 10 -> totalMinutes head = 60 ->
          parsed = Some 5 -> endMin interval' = 11).
Proof.
  intros hs i j k head sub interval parsed Hr Hexact.
  apply rendered_Some in Hr. destruct Hr as (Hh & Hs & Hi).
  unfold onChangeEndMin, updateInterval, rendered.
  rewrite nth_error_map, Hh. cbn [option_map].
  rewrite String.eqb_refl. cbn [negb withSubChannels subChannels].
  rewrite nth_error_map, Hs. cbn [option_map].
  rewrite String.eqb_refl. cbn [negb withIntervals intervals].
  rewrite nth_error_map, Hi. cbn [option_map].
  rewrite String.eqb_refl.
  rewrite double_exact by lia.
  eexists. eexists. eexists. split; [reflexivity|].
  cbn. repeat split; try reflexivity.
  - intros Hpos. destruct parsed as [[| |]|]; simpl; lia.
  - intros Hs10 Ht Hp. subst parsed. rewrite Hs10, Ht. reflexivity.
Qed.

Lemma onChangeEndMin_clamps_witness :
  exists (head' : ImportHeadChannel) (sub' : ImportSubChannel)
         (interval' : TimelineInterval),
    rendered
      (onChangeEndMin
         [mkHead "h" "Head 1" 60
                 [mkSub "s" "Sub 1" [mkInterval "i" 10 15] true] true]
         (mkHead "h" "Head 1" 60
                 [mkSub "s" "Sub 1" [mkInterval "i" 10 15] true] true)
         (mkSub "s" "Sub 1" [mkInterval "i" 10 15] true)
         (mkInterval "i" 10 15) (Some 5))
      0 0 0
    = Some (head', sub', interval')
    /\ endMin interval' = 11.
Proof.
  assert (Hexact : Z.abs (startMin (mkInterval "i" 10 15)) < exactUpTo).
  { unfold exactUpTo. simpl. lia. }
  destruct (onChangeEndMin_clamps
              [mkHead "h" "Head 1" 60
                      [mkSub "s" "Sub 1" [mkInterval "i" 10 15] true] true]
              0 0 0
              (mkHead "h" "Head 1" 60
                      [mkSub "s" "Sub 1" [mkInterval "i" 10 15] true] true)
              (mkSub "s" "Sub 1" [mkInterval "i" 10 15] true)
              (mkInterval "i" 10 15) (Some 5) eq_refl Hexact)
    as (head' & sub' & interval' & Hr & He & _).
  exists head', sub', interval'. split; [exact Hr | exact He].
Defined.

(** *** Validity along admissible runs *)

Lemma NoDup_map_same_key {A : Type} (f : A -> string) (l : list A) (x y : A) :
  List.NoDup (map f l) -> In x l -> In y l -> f x = f y -> x = y.
Proof.
  induction l as [|a l IH]; simpl; intros Hnd Hx Hy Hf; [contradiction|].
  apply NoDup_cons_iff in Hnd. destruct Hnd as [Hnotin Hnd].
  destruct Hx as [Hx|Hx], Hy as [Hy|Hy]; subst.
  - reflexivity.
  - exfalso. apply Hnotin. rewrite Hf. apply in_map. exact Hy.
  - exfalso. apply Hnotin. rewrite <- Hf. apply in_map. exact Hx.
  - apply IH; assumption.
Qed.

Lemma NoDup_map_filter {A : Type} (f : A -> string) (p : A -> bool)
    (l : list A) :
  List.NoDup (map f l) -> List.NoDup (map f (List.filter p l)).
Proof.
  induction l as [|a l IH]; simpl; intros Hnd; [constructor|].
  apply NoDup_cons_iff in Hnd. destruct Hnd as [Hnotin Hnd].
  destruct (p a); [|apply IH; exact Hnd].
  simpl. apply NoDup_cons_iff. split; [|apply IH; exact Hnd].
  intros Hin. apply Hnotin.
  apply in_map_iff in Hin. destruct Hin as (x & Hfx & Hx).
  apply filter_In in Hx. destruct Hx as [Hx _].
  rewrite <- Hfx. apply in_map. exact Hx.
Qed.

Lemma NoDup_map_snoc {A : Type} (f : A -> string) (l : list A) (x : A) :
  List.NoDup (map f l) -> ~ In (f x) (map f l) -> List.NoDup (map f (l ++ [x])).
Proof.
  induction l as [|a l IH]; simpl; intros Hnd Hnotin.
  - constructor; [intros []|constructor].
  - apply NoDup_cons_iff in Hnd. destruct Hnd as [Ha Hnd].
    apply NoDup_cons_iff. split.
    + rewrite map_app, in_app_iff. simpl. intros [Hin|[Heq|[]]].
      * apply Ha. exact Hin.
      * apply Hnotin. left. symmetry. exact Heq.
    + apply IH; [exact Hnd|]. intros Hin. apply Hnotin. right. exact Hin.
Qed.

Lemma isFresh_not_In (newId : string) (ids : list string) :
  isFresh newId ids = true -> ~ In newId ids.
Proof.
  unfold isFresh. intros H Hin.
  apply negb_true_iff in H.
  apply (existsb_false_In _ _ newId H) in Hin.
  rewrite String.eqb_refl in Hin. discriminate.
Qed.

Lemma last_In {A : Type} (l : list A) (x : A) : last l = Some x -> In x l.
Proof.
  induction l as [|a l IH]; [discriminate|].
  destruct l as [|b l].
  - simpl. intros H. inversion H. left. reflexivity.
  - intros H. right. apply IH. exact H.
Qed.

Lemma lastEnd_nonneg (total : Z) (ivs : list TimelineInterval) :
  Forall (validInterval total) ivs -> 0 <= lastEnd ivs.
Proof.
  intros Hall. unfold lastEnd.
  destruct (last ivs) as [i|] eqn:E; [|lia].
  apply last_In in E. rewrite List.Forall_forall in Hall.
  destruct (Hall i E) as (H0 & H1 & _). lia.
Qed.

(** Rewriting every element with a function that keeps ids and the
    invariant of the level below. *)
Lemma subOk_map (total : Z) (s : ImportSubChannel)
    (k : TimelineInterval -> TimelineInterval) :
  subOk total s ->
  (forall i, In i (intervals s) -> validInterval total i ->
             iv_id (k i) = iv_id i /\ validInterval total (k i)) ->
  subOk total (withIntervals s (map k (intervals s))).
Proof.
  intros [Hnd Hall] Hk. rewrite List.Forall_forall in Hall.
  unfold subOk. simpl. split.
  - rewrite map_map.
    rewrite (map_ext_in _ iv_id); [exact Hnd|].
    intros i Hi. apply (Hk i Hi (Hall i Hi)).
  - apply List.Forall_forall. intros x Hx.
    apply in_map_iff in Hx. destruct Hx as (i & <- & Hi).
    apply (Hk i Hi (Hall i Hi)).
Qed.

Lemma headOk_map (h : ImportHeadChannel)
    (g : ImportSubChannel -> ImportSubChannel) :
  headOk h ->
  (forall s, In s (subChannels h) -> subOk (totalMinutes h) s ->
             sub_id (g s) = sub_id s /\ subOk (totalMinutes h) (g s)) ->
  headOk (withSubChannels h (map g (subChannels h))).
Proof.
  intros (Htot & Hnd & Hall) Hg. rewrite List.Forall_forall in Hall.
  unfold headOk. simpl. split; [exact Htot|]. split.
  - rewrite map_map.
    rewrite (map_ext_in _ sub_id); [exact Hnd|].
    intros s Hs. apply (Hg s Hs (Hall s Hs)).
  - apply List.Forall_forall. intros x Hx.
    apply in_map_iff in Hx. destruct Hx as (s & <- & Hs).
    apply (Hg s Hs (Hall s Hs)).
Qed.

Lemma Inv_map (hs : list ImportHeadChannel)
    (f : ImportHeadChannel -> ImportHeadChannel) :
  Inv hs ->
  (forall h, In h hs -> headOk h ->
             head_id (f h) = head_id h /\ headOk (f h)) ->
  Inv (map f hs).
Proof.
  intros [Hnd Hall] Hf. rewrite List.Forall_forall in Hall.
  unfold Inv, headIds. split.
  - rewrite map_map.
    rewrite (map_ext_in _ head_id); [exact Hnd|].
    intros h Hh. apply (Hf h Hh (Hall h Hh)).
  - apply List.Forall_forall. intros x Hx.
    apply in_map_iff in Hx. destruct Hx as (h & <- & Hh).
    apply (Hf h Hh (Hall h Hh)).
Qed.

Lemma Inv_allValid (hs : list ImportHeadChannel) : Inv hs -> allValid hs.
Proof.
  intros [_ Hall]. unfold allValid, validHead.
  eapply List.Forall_impl; [|exact Hall].
  intros h (_ & _ & Hsubs).
  eapply List.Forall_impl; [|exact Hsubs].
  intros s [_ Hivs]. exact Hivs.
Qed.

Lemma Inv_nil : Inv [].
Proof. split; constructor. Qed.

Lemma headOk_spread_name (h : ImportHeadChannel) (name : string) :
  headOk h ->
  headOk (spreadHead h (mkHeadUpdates None (Some name) None None None)).
Proof. destruct h. exact (fun H => H). Qed.

Lemma subOk_spread_name (total : Z) (s : ImportSubChannel) (name : string) :
  subOk total s ->
  subOk total (spreadSub s (mkSubUpdates None (Some name) None None)).
Proof. destruct s. exact (fun H => H). Qed.

Lemma fresh_sub_id (hs : list ImportHeadChannel) (h : ImportHeadChannel)
    (newId : string) :
  isFresh newId (subIds hs) = true -> In h hs ->
  ~ In newId (map sub_id (subChannels h)).
Proof.
  intros Hfresh Hh Hin. apply isFresh_not_In in Hfresh. apply Hfresh.
  unfold subIds. apply in_flat_map. exists h. split; assumption.
Qed.

Lemma fresh_interval_id (hs : list ImportHeadChannel) (h : ImportHeadChannel)
    (s : ImportSubChannel) (newId : string) :
  isFresh newId (intervalIds hs) = true -> In h hs -> In s (subChannels h) ->
  ~ In newId (map iv_id (intervals s)).
Proof.
  intros Hfresh Hh Hs Hin. apply isFresh_not_In in Hfresh. apply Hfresh.
  unfold intervalIds. apply in_flat_map. exists h. split; [exact Hh|].
  apply in_flat_map. exists s. split; assumption.
Qed.

Lemma hasRoom_lastEnd (hs : list ImportHeadChannel) (headId subId : string)
    (h : ImportHeadChannel) (s : ImportSubChannel) :
  hasRoom hs headId subId = true ->
  In h hs -> head_id h = headId ->
  In s (subChannels h) -> sub_id s = subId ->
  lastEnd (intervals s) < totalMinutes h.
Proof.
  unfold hasRoom. intros Hroom Hh Eh Hs Es.
  rewrite forallb_forall in Hroom. specialize (Hroom h Hh).
  cbv beta in Hroom. rewrite Eh, String.eqb_refl in Hroom.
  simpl in Hroom. rewrite forallb_forall in Hroom.
  specialize (Hroom s Hs). cbv beta in Hroom.
  rewrite Es, String.eqb_refl in Hroom. simpl in Hroom. lia.
Qed.

Lemma coversIntervals_endMin (head : ImportHeadChannel) (total : Z)
    (s : ImportSubChannel) (i : TimelineInterval) :
  coversIntervals head total = true ->
  In s (subChannels head) -> In i (intervals s) -> endMin i <= total.
Proof.
  unfold coversIntervals. intros Hc Hs Hi.
  rewrite forallb_forall in Hc. specialize (Hc s Hs).
  rewrite forallb_forall in Hc. specialize (Hc i Hi). lia.
Qed.

(** Every admissible event keeps the invariant. *)
Lemma handle_Inv (hs : list ImportHeadChannel) (e : Event) :
  Inv hs -> admissible hs e = true -> Inv (handle hs e).
Proof.
  intros HInv Hadm. destruct e; simpl in *.
  - (* AddHead *)
    destruct HInv as [Hnd Hall]. unfold addHeadChannel, Inv, headIds. split.
    + apply NoDup_map_snoc; [exact Hnd|].
      apply isFresh_not_In. exact Hadm.
    + apply Forall_app. split; [exact Hall|].
      constructor; [|constructor].
      unfold headOk, exactUpTo. simpl. repeat split; try constructor; lia.
  - (* DeleteHead *)
    destruct HInv as [Hnd Hall]. unfold deleteHeadChannel, Inv, headIds. split.
    + apply NoDup_map_filter. exact Hnd.
    + rewrite List.Forall_forall in *. intros h Hh.
      apply filter_In in Hh. apply Hall. apply Hh.
  - (* RenameHead *)
    unfold updateHeadChannel. apply Inv_map; [exact HInv|].
    intros h Hh Hok. destruct (String.eqb (head_id h) headId).
    + split; [reflexivity | apply headOk_spread_name; exact Hok].
    + auto.
  - (* EditTotalMinutes *)
    destruct (nth_error hs i) as [head|] eqn:Ei; [|exact HInv].
    apply nth_error_In in Ei.
    apply andb_true_iff in Hadm. destruct Hadm as [Hadm Hexact].
    apply Z.leb_le in Hexact.
    unfold onChangeTotalMinutes, updateHeadChannel.
    apply Inv_map; [exact HInv|].
    intros h Hh Hok. destruct (String.eqb_spec (head_id h) (head_id head)) as [E|E];
      [|auto].
    assert (h = head).
    { apply (NoDup_map_same_key head_id hs); try assumption. apply HInv. }
    subst h. split; [reflexivity|].
    destruct Hok as (Htot & Hnd & Hsubs). unfold headOk. simpl.
    split; [lia|]. split; [exact Hnd|].
    rewrite List.Forall_forall in *. intros s Hs.
    destruct (Hsubs s Hs) as [Hnds Hivs]. split; [exact Hnds|].
    rewrite List.Forall_forall in *. intros iv Hiv.
    destruct (Hivs iv Hiv) as (H0 & H1 & _).
    pose proof (coversIntervals_endMin head _ s iv Hadm Hs Hiv).
    unfold validInterval. auto.
  - (* ToggleHead *)
    unfold toggleHeadExpand. apply Inv_map; [exact HInv|].
    intros h Hh Hok. destruct (String.eqb (head_id h) headId); auto.
  - (* AddSub *)
    unfold addSubChannel. apply Inv_map; [exact HInv|].
    intros h Hh Hok. destruct (String.eqb (head_id h) headId); simpl; [|auto].
    split; [reflexivity|].
    destruct Hok as (Htot & Hnd & Hsubs). unfold headOk. simpl.
    split; [exact Htot|]. split.
    + apply NoDup_map_snoc; [exact Hnd|].
      apply (fresh_sub_id hs h newId Hadm Hh).
    + apply Forall_app. split; [exact Hsubs|].
      constructor; [|constructor]. split; constructor.
  - (* DeleteSub *)
    unfold deleteSubChannel. apply Inv_map; [exact HInv|].
    intros h Hh Hok. destruct (String.eqb (head_id h) headId); simpl; [|auto].
    split; [reflexivity|].
    destruct Hok as (Htot & Hnd & Hsubs). unfold headOk. simpl.
    split; [exact Htot|]. split.
    + apply NoDup_map_filter. exact Hnd.
    + rewrite List.Forall_forall in *. intros s Hs.
      apply filter_In in Hs. apply Hsubs. apply Hs.
  - (* RenameSub *)
    unfold updateSubChannel. apply Inv_map; [exact HInv|].
    intros h Hh Hok. destruct (String.eqb (head_id h) headId); simpl; [|auto].
    split; [reflexivity|]. apply headOk_map; [exact Hok|].
    intros s Hs Hsok. destruct (String.eqb (sub_id s) subId).
    + split; [reflexivity | apply subOk_spread_name; exact Hsok].
    + auto.
  - (* ToggleSub *)
    unfold toggleSubExpand. apply Inv_map; [exact HInv|].
    intros h Hh Hok. destruct (String.eqb (head_id h) headId); simpl; [|auto].
    split; [reflexivity|]. apply headOk_map; [exact Hok|].
    intros s Hs Hsok. destruct (String.eqb (sub_id s) subId); auto.
  - (* AddInterval *)
    apply andb_true_iff in Hadm. destruct Hadm as [Hfresh Hroom].
    unfold addInterval. apply Inv_map; [exact HInv|].
    intros h Hh Hok.
    destruct (String.eqb_spec (head_id h) headId) as [Eh|Eh]; simpl; [|auto].
    split; [reflexivity|]. apply headOk_map; [exact Hok|].
    intros s Hs [Hnd Hivs].
    destruct (String.eqb_spec (sub_id s) subId) as [Es|Es]; simpl;
      [|split; [reflexivity | split; assumption]].
    split; [reflexivity|]. unfold subOk. simpl. split.
    + apply NoDup_map_snoc; [exact Hnd|].
      apply (fresh_interval_id hs h s newId Hfresh Hh Hs).
    + apply Forall_app. split; [exact Hivs|].
      constructor; [|constructor].
      pose proof (lastEnd_nonneg _ _ Hivs).
      pose proof (hasRoom_lastEnd hs headId subId h s Hroom Hh Eh Hs Es).
      unfold validInterval. simpl. lia.
  - (* DeleteInterval *)
    unfold deleteInterval. apply Inv_map; [exact HInv|].
    intros h Hh Hok. destruct (String.eqb (head_id h) headId); simpl; [|auto].
    split; [reflexivity|]. apply headOk_map; [exact Hok|].
    intros s Hs [Hnd Hivs].
    destruct (String.eqb (sub_id s) subId); simpl;
      [|split; [reflexivity | split; assumption]].
    split; [reflexivity|]. unfold subOk. simpl. split.
    + apply NoDup_map_filter. exact Hnd.
    + rewrite List.Forall_forall in *. intros iv Hiv.
      apply filter_In in Hiv. apply Hivs. apply Hiv.
  - (* EditStartMin *)
    destruct (rendered hs i j k) as [[[head sub] interval]|] eqn:Er;
      [|exact HInv].
    apply rendered_Some in Er. destruct Er as (Ehd & Esb & Eiv).
    apply nth_error_In in Ehd, Esb, Eiv.
    unfold onChangeStartMin, updateInterval. apply Inv_map; [exact HInv|].
    intros h Hh Hok.
    destruct (String.eqb_spec (head_id h) (head_id head)) as [Eh|Eh]; simpl;
      [|auto].
    assert (h = head).
    { apply (NoDup_map_same_key head_id hs); try assumption. apply HInv. }
    subst h. split; [reflexivity|]. apply headOk_map; [exact Hok|].
    intros s Hs Hsok.
    destruct (String.eqb_spec (sub_id s) (sub_id sub)) as [Es|Es]; simpl;
      [|auto].
    assert (s = sub).
    { apply (NoDup_map_same_key sub_id (subChannels head)); try assumption.
      apply Hok. }
    subst s. split; [reflexivity|]. apply subOk_map; [exact Hsok|].
    intros iv Hiv Hval.
    destruct (String.eqb_spec (iv_id iv) (iv_id interval)) as [Ei|Ei]; [|auto].
    assert (iv = interval).
    { apply (NoDup_map_same_key iv_id (intervals sub)); try assumption.
      apply Hsok. }
    subst iv. split; [reflexivity|].
    destruct Hok as ((Ht1 & Ht2) & _).
    destruct Hval as (H0 & H1 & H2). unfold validInterval. simpl.
    rewrite double_exact by lia. lia.
  - (* EditEndMin *)
    destruct (rendered hs i j k) as [[[head sub] interval]|] eqn:Er;
      [|exact HInv].
    apply rendered_Some in Er. destruct Er as (Ehd & Esb & Eiv).
    apply nth_error_In in Ehd, Esb, Eiv.
    unfold onChangeEndMin, updateInterval. apply Inv_map; [exact HInv|].
    intros h Hh Hok.
    destruct (String.eqb_spec (head_id h) (head_id head)) as [Eh|Eh]; simpl;
      [|auto].
    assert (h = head).
    { apply (NoDup_map_same_key head_id hs); try assumption. apply HInv. }
    subst h. split; [reflexivity|]. apply headOk_map; [exact Hok|].
    intros s Hs Hsok.
    destruct (String.eqb_spec (sub_id s) (sub_id sub)) as [Es|Es]; simpl;
      [|auto].
    assert (s = sub).
    { apply (NoDup_map_same_key sub_id (subChannels head)); try assumption.
      apply Hok. }
    subst s. split; [reflexivity|]. apply subOk_map; [exact Hsok|].
    intros iv Hiv Hval.
    destruct (String.eqb_spec (iv_id iv) (iv_id interval)) as [Ei|Ei]; [|auto].
    assert (iv = interval).
    { apply (NoDup_map_same_key iv_id (intervals sub)); try assumption.
      apply Hsok. }
    subst iv. split; [reflexivity|].
    destruct Hok as ((Ht1 & Ht2) & _).
    destruct Hval as (H0 & H1 & H2). unfold validInterval. simpl.
    rewrite double_exact by lia. lia.
Qed.

Lemma run_Inv (events : list Event) :
  forall hs : list ImportHeadChannel,
    Inv hs -> admissibleRun hs events = true -> Inv (run hs events).
Proof.
  induction events as [|e rest IH]; intros hs HInv Hadm; simpl.
  - exact HInv.
  - simpl in Hadm. apply andb_true_iff in Hadm. destruct Hadm as [He Hrest].
    apply IH; [apply handle_Inv; assumption | exact Hrest].
Qed.

(** C6, as stated, fails: lowering a head's total leaves the intervals
    entered before as they are. After adding a head, a sub channel and an
    interval (0 to 5), setting the total to 3 leaves the interval ending at
    5, beyond the total. *)
Lemma lowered_total_leaves_interval_out_of_range :
  ~ (forall events : list Event, allValid (run [] events)).
Proof.
  intros H.
  specialize (H [AddHead "h1"; AddSub "h1" "s1"; AddInterval "h1" "s1" "i1";
                 EditTotalMinutes 0 (Some 3)]).
  unfold allValid in H. apply Forall_inv in H.
  unfold validHead in H. apply Forall_inv in H. apply Forall_inv in H.
  destruct H as (_ & _ & H). vm_compute in H. apply H. reflexivity.
Qed.

(** C6 (amended): from the empty builder, with generated ids distinct from
    the ids in use, after any sequence of operations in which a head's total
    is never set below the end of an interval already under it nor above
    2^53, and an interval is added only to a sub channel whose last
    interval ends before the head's total, every interval of every sub
    channel satisfies [0 <= startMin], [startMin + 1 <= endMin] and
    [endMin <= head.totalMinutes]. *)
Theorem admissible_run_keeps_intervals_valid :
  forall events : list Event,
    admissibleRun [] events = true ->
    allValid (run [] events).
Proof.
  intros events Hadm. apply Inv_allValid.
  apply run_Inv; [apply Inv_nil | exact Hadm].
Qed.

Lemma admissible_run_keeps_intervals_valid_witness :
  allValid (run [] [AddHead "h1"; AddSub "h1" "s1";
                    AddInterval "h1" "s1" "i1"; AddInterval "h1" "s1" "i2";
                    EditEndMin 0 0 1 (Some 90); EditStartMin 0 0 1 (Some 7);
                    EditTotalMinutes 0 (Some 120); DeleteInterval "h1" "s1" "i1"]).
Proof.
  apply admissible_run_keeps_intervals_valid. vm_compute. reflexivity.
Defined.

(** With its last interval already ending at the head's total, a sub
    channel gets an interval of width 0 from [addInterval]: on a 5-minute
    head the second interval added is [5, 5]. *)
Example addInterval_on_full_sub_channel :
  map (fun h => map (fun s => map (fun i => (startMin i, endMin i))
                                   (intervals s))
                    (subChannels h))
      (run [] [AddHead "h1"; EditTotalMinutes 0 (Some 5); AddSub "h1" "s1";
               AddInterval "h1" "s1" "i1"; AddInterval "h1" "s1" "i2"])
  = [[[(0, 5); (5, 5)]]].
Proof. vm_compute. reflexivity. Qed.

(** [addInterval] adds 5 to the end of the last interval. Where that end
    is not negative and before a total of at most 2^53, as it is in every
    state that keeps the invariant, the sum as a double gives the same new
    end as the exact sum. *)
Remark addInterval_end_in_range (e total : Z) :
  0 <= e -> e < total -> total <= exactUpTo ->
  Z.min (double (e + 5)) total = Z.min (e + 5) total.
Proof.
  unfold exactUpTo. intros He Hlt Htot.
  destruct (Z.le_gt_cases (e + 5) 9007199254740992) as [Hsmall|Hbig].
  - rewrite double_exact by (unfold exactUpTo; lia). reflexivity.
  - assert (Hd : 9007199254740992 <= double (e + 5)).
    { assert (Hcases : e = 9007199254740988 \/ e = 9007199254740989
                       \/ e = 9007199254740990 \/ e = 9007199254740991)
        by lia.
      destruct Hcases as [-> | [-> | [-> | ->]]];
        vm_compute; discriminate. }
    lia.
Qed.

End Builder.

(** ** The clock-based builder (with and without cutoff timers) *)

Module OClock.

(** *** JavaScript numbers, as far as the builder meets them *)

Inductive num : Type :=
| NaN
| Int (z : Z).

Definition nadd (a b : num) : num :=
  match a, b with
  | Int x, Int y => Int (x + y)
  | _, _ => NaN
  end.

Definition nsub (a b : num) : num :=
  match a, b with
  | Int x, Int y => Int (x - y)
  | _, _ => NaN
  end.

Definition nmul (a b : num) : num :=
  match a, b with
  | Int x, Int y => Int (x * y)
  | _, _ => NaN
  end.

(** [Math.max(a, b)]: [NaN] when either argument is. *)
Definition nmax (a b : num) : num :=
  match a, b with
  | Int x, Int y => Int (Z.max x y)
  | _, _ => NaN
  end.

(** [Math.min(a, b)] *)
Definition nmin (a b : num) : num :=
  match a, b with
  | Int x, Int y => Int (Z.min x y)
  | _, _ => NaN
  end.

(** [Math.floor(a / d)] for a positive integer [d]. *)
Definition nfloordiv (a : num) (d : Z) : num :=
  match a with
  | Int x => Int (x / d)
  | NaN => NaN
  end.

(** [a % d]: the remainder takes the sign of [a]. *)
Definition nrem (a : num) (d : Z) : num :=
  match a with
  | Int x => Int (Z.rem x d)
  | NaN => NaN
  end.

(** [a <= b]: false as soon as [NaN] is involved. *)
Definition nleb (a b : num) : bool :=
  match a, b with
  | Int x, Int y => x <=? y
  | _, _ => false
  end.

(** [n.toString()] *)
Definition numToString (n : num) : string :=
  match n with
  | NaN => "NaN"
  | Int z => pretty z
  end.

Definition digitOf (c : ascii) : option Z :=
  let n := Z.of_N (N_of_ascii c) in
  if (48 <=? n) && (n <=? 57) then Some (n - 48) else None.

Fixpoint digitsValue (acc : Z) (s : string) : num :=
  match s with
  | EmptyString => Int acc
  | String c rest =>
      match digitOf c with
      | Some d => digitsValue (10 * acc + d) rest
      | None => NaN
      end
  end.

(** [Number(s)] on the strings a time field holds: the empty string is 0, a
    run of decimal digits (with an optional sign) is its value, and
    anything else is read as [NaN]. Fractions, exponents, other radixes and
    surrounding blanks, which a time field never holds, are outside this
    model. *)
Definition Number (s : string) : num :=
  match s with
  | EmptyString => Int 0
  | String "-" (String _ _ as rest) =>
      nsub (Int 0) (digitsValue 0 rest)
  | String "+" (String _ _ as rest) => digitsValue 0 rest
  | _ => digitsValue 0 s
  end.

(** [s.split(sep)] for a one-character separator. *)
Fixpoint split (sep : ascii) (s : string) : list string :=
  match s with
  | EmptyString => [EmptyString]
  | String c rest =>
      if Ascii.eqb c sep then EmptyString :: split sep rest
      else
        match split sep rest with
        | w :: ws => String c w :: ws
        | [] => [String c EmptyString]
        end
  end.

Fixpoint repeatChar (n : nat) (c : ascii) : string :=
  match n with
  | O => EmptyString
  | S n' => String c (repeatChar n' c)
  end.

(** [s.padStart(width, c)] *)
Definition padStart (width : nat) (c : ascii) (s : string) : string :=
  repeatChar (width - String.length s) c +:+ s.

(** *** Records *)

Record TimelineInterval : Type := mkInterval {
  iv_id : string;
  startTime : string;
  endTime : string
}.

Record ImportSubChannel : Type := mkSub {
  sub_id : string;
  sub_name : string;
  intervals : list TimelineInterval;
  sub_expanded : bool;
  isCutoff : option bool
}.

Record ImportHeadChannel : Type := mkHead {
  head_id : string;
  head_name : string;
  headStartTime : string;
  headEndTime : string;
  subChannels : list ImportSubChannel;
  head_expanded : bool
}.

(** *** Clock arithmetic *)

(** [const [hours, minutes] = time.split(':').map(Number)]; a missing
    element is [undefined], and arithmetic on it gives [NaN]. *)
Definition timeToMinutes (time : string) : num :=
  match map Number (split ":" time) with
  | hours :: minutes :: _ => nadd (nmul hours (Int 60)) minutes
  | _ => NaN
  end.

Definition minutesToTime (mins : num) : string :=
  let hours := nrem (nfloordiv mins 60) 24 in
  let minutes := nrem mins 60 in
  padStart 2 "0" (numToString hours) +:+ ":"
  +:+ padStart 2 "0" (numToString minutes).

Definition getDurationMinutes (startTime endTime : string) : num :=
  nmax (Int 0) (nsub (timeToMinutes endTime) (timeToMinutes startTime)).

(** [s.isCutoff] as a condition: an absent flag is falsy. *)
Definition cutoffFlag (s : ImportSubChannel) : bool :=
  match isCutoff s with
  | Some b => b
  | None => false
  end.

(** [sub.intervals.reduce((intAcc, int) => intAcc + getDurationMinutes(...), 0)] *)
Definition sumIntervals (s : ImportSubChannel) : num :=
  fold_left (fun intAcc int =>
               nadd intAcc (getDurationMinutes (startTime int) (endTime int)))
            (intervals s) (Int 0).

Record HeadSummary : Type := mkSummary {
  totalMins : num;
  cutoffMins : num;
  netMins : num
}.

Definition getHeadSummary (head : ImportHeadChannel) : HeadSummary :=
  let totalMins := getDurationMinutes (headStartTime head) (headEndTime head) in
  let cutoffMins :=
    fold_left (fun acc s => nadd acc (sumIntervals s))
              (List.filter cutoffFlag (subChannels head)) (Int 0) in
  mkSummary totalMins cutoffMins (nsub totalMins cutoffMins).

(** The net operational minutes [TimelineVisualization] shows for a head;
    [None] when it renders nothing for the head
    ([if (totalDurationMins <= 0) return null]). *)
Definition netOperationalMins (head : ImportHeadChannel) : option num :=
  let headStartMins := timeToMinutes (headStartTime head) in
  let headEndMins := timeToMinutes (headEndTime head) in
  let totalDurationMins := nsub headEndMins headStartMins in
  if nleb totalDurationMins (Int 0) then None
  else
    let cutoffSubs := List.filter cutoffFlag (subChannels head) in
    let totalCutoffMins :=
      fold_left (fun acc sub => nadd acc (sumIntervals sub))
                cutoffSubs (Int 0) in
    Some (nsub totalDurationMins totalCutoffMins).

(** *** The net duration in the words of the specification *)

(** Sum of a list of numbers. *)
Definition nsum (l : list num) : num := fold_right nadd (Int 0) l.

(** The head's total duration, floored at 0. *)
Definition headTotal (head : ImportHeadChannel) : num :=
  nmax (Int 0)
       (nsub (timeToMinutes (headEndTime head))
             (timeToMinutes (headStartTime head))).

(** The durations, each floored at 0, of all intervals of all sub channels
    flagged as cutoff. *)
Definition cutoffDurations (head : ImportHeadChannel) : list num :=
  flat_map (fun s =>
              if cutoffFlag s
              then map (fun int =>
                          nmax (Int 0)
                               (nsub (timeToMinutes (endTime int))
                                     (timeToMinutes (startTime int))))
                       (intervals s)
              else [])
           (subChannels head).

Definition headNet (head : ImportHeadChannel) : num :=
  nsub (headTotal head) (nsum (cutoffDurations head)).

(** Whether converting to a clock string and back returns every minute
    count below [n]. *)
Definition roundTripsBelow (n : nat) : bool :=
  forallb (fun k =>
             match timeToMinutes (minutesToTime (Int (Z.of_nat k))) with
             | Int z => z =? Z.of_nat k
             | NaN => false
             end)
          (seq 0 n).

(** *** Sums *)

Lemma nadd_assoc (a b c : num) : nadd (nadd a b) c = nadd a (nadd b c).
Proof. destruct a, b, c; simpl; try reflexivity. f_equal. lia. Qed.

Lemma nadd_0_l (a : num) : nadd (Int 0) a = a.
Proof. destruct a; reflexivity. Qed.

Lemma nadd_0_r (a : num) : nadd a (Int 0) = a.
Proof. destruct a; simpl; try reflexivity. f_equal. lia. Qed.

Lemma nsum_app (l1 l2 : list num) :
  nsum (l1 ++ l2) = nadd (nsum l1) (nsum l2).
Proof.
  induction l1 as [|a l1 IH]; simpl.
  - symmetry. apply nadd_0_l.
  - rewrite IH. symmetry. apply nadd_assoc.
Qed.

(** A [reduce] that adds [f x] for every element is the start value plus
    the sum. *)
Lemma reduce_nadd {A : Type} (f : A -> num) (l : list A) :
  forall acc : num,
    fold_left (fun acc x => nadd acc (f x)) l acc
    = nadd acc (nsum (map f l)).
Proof.
  induction l as [|x l IH]; intros acc; simpl.
  - symmetry. apply nadd_0_r.
  - rewrite IH. apply nadd_assoc.
Qed.

Lemma sumIntervals_nsum (s : ImportSubChannel) :
  sumIntervals s
  = nsum (map (fun int => getDurationMinutes (startTime int) (endTime int))
              (intervals s)).
Proof. unfold sumIntervals. rewrite reduce_nadd. apply nadd_0_l. Qed.

Lemma cutoff_reduce (subs : list ImportSubChannel) :
  nsum (map sumIntervals (List.filter cutoffFlag subs))
  = nsum (flat_map
            (fun s =>
               if cutoffFlag s
               then map (fun int =>
                           nmax (Int 0)
                                (nsub (timeToMinutes (endTime int))
                                      (timeToMinutes (startTime int))))
                        (intervals s)
               else [])
            subs).
Proof.
  induction subs as [|s subs IH]; [reflexivity|].
  cbn [List.filter flat_map]. destruct (cutoffFlag s).
  - cbn [map]. rewrite nsum_app, <- IH, sumIntervals_nsum. reflexivity.
  - exact IH.
Qed.

Lemma getHeadSummary_cutoffMins (head : ImportHeadChannel) :
  cutoffMins (getHeadSummary head) = nsum (cutoffDurations head).
Proof.
  unfold getHeadSummary, cutoffDurations. simpl.
  rewrite reduce_nadd, nadd_0_l. apply cutoff_reduce.
Qed.

Lemma nmax_0_positive (t : num) : nleb t (Int 0) = false -> nmax (Int 0) t = t.
Proof.
  destruct t as [|z]; simpl; [reflexivity|].
  intros H. apply Z.leb_gt in H. f_equal. lia.
Qed.

(** C8: the head summary's net minutes are its total minutes (the duration
    from start to end, floored at 0) minus its cutoff minutes (the sum of
    the floored durations of all intervals of all sub channels flagged as
    cutoff), and the visualization shows this same value for every head it
    renders (it renders nothing for a head whose end is not after its
    start). *)
Theorem getHeadSummary_net :
  forall head : ImportHeadChannel,
    totalMins (getHeadSummary head) = headTotal head
    /\ cutoffMins (getHeadSummary head) = nsum (cutoffDurations head)
    /\ netMins (getHeadSummary head)
       = nsub (totalMins (getHeadSummary head))
              (cutoffMins (getHeadSummary head))
    /\ netMins (getHeadSummary head) = headNet head
    /\ netOperationalMins head
       = if nleb (nsub (timeToMinutes (headEndTime head))
                       (timeToMinutes (headStartTime head)))
                 (Int 0)
         then None
         else Some (netMins (getHeadSummary head)).
Proof.
  intros head.
  pose proof (getHeadSummary_cutoffMins head) as Hcut.
  split; [reflexivity|]. split; [exact Hcut|]. split; [reflexivity|].
  split.
  - unfold headNet. rewrite <- Hcut. reflexivity.
  - unfold netOperationalMins, getHeadSummary, getDurationMinutes.
    cbn [netMins].
    destruct (nleb (nsub (timeToMinutes (headEndTime head))
                         (timeToMinutes (headStartTime head))) (Int 0)) eqn:E;
      [reflexivity|].
    rewrite (nmax_0_positive _ E). reflexivity.
Qed.

(** *** Minutes to clock string and back *)

Lemma roundTripsBelow_day : roundTripsBelow 1440 = true.
Proof. vm_compute. reflexivity. Qed.

(** C10: for every minute count [m] of a day, [0 <= m < 1440], converting
    to a clock string and back returns [m]. *)
Theorem timeToMinutes_minutesToTime :
  forall m : Z,
    0 <= m < 1440 ->
    timeToMinutes (minutesToTime (Int m)) = Int m.
Proof.
  intros m Hm.
  pose proof roundTripsBelow_day as Hall.
  unfold roundTripsBelow in Hall. rewrite forallb_forall in Hall.
  specialize (Hall (Z.to_nat m)).
  rewrite Z2Nat.id in Hall by lia.
  assert (Hin : In (Z.to_nat m) (seq 0 1440)).
  { apply in_seq. lia. }
  specialize (Hall Hin).
  destruct (timeToMinutes (minutesToTime (Int m))) as [|z]; [discriminate|].
  apply Z.eqb_eq in Hall. congruence.
Qed.

Lemma timeToMinutes_minutesToTime_witness :
  timeToMinutes (minutesToTime (Int 425)) = Int 425.
Proof. apply timeToMinutes_minutesToTime. lia. Defined.

End OClock.

(** ** hooks/useStopwatch: the head toggle *)

Module Stopwatch.

(** Modelled from the spec: the [Timer] of the data model (section 3), whose
    declaration lives in [@/types]. [startedAt] is absent when the timer is
    not running. *)
Record Timer : Type := mkTimer {
  id : string;
  name : string;
  running : bool;
  accumulatedMs : Z;
  startedAt : option Z
}.

(** Modelled from the spec: a [SubChannel] is a timer plus its mark
    ledger. *)
Record SubChannel : Type := mkSub {
  subTimer : Timer;
  marks : list Chart.SubChannelMark
}.

(** Modelled from the spec: a [HeadChannel] is a timer plus its ordered sub
    channels. *)
Record HeadChannel : Type := mkHead {
  headTimer : Timer;
  subChannels : list SubChannel
}.

(** Modelled from the spec: the time run since [startedAt], for a timer
    that is running; the wall clock is the argument [now]. A running timer
    that lacks [startedAt] adds nothing. *)
Definition openDelta (t : Timer) (now : Z) : Z :=
  match startedAt t with
  | Some since => now - since
  | None => 0
  end.

(** Modelled from the spec: [getElapsedMs] of the Elapsed-Time Engine,
    [accumulatedMs + (running ? now - startedAt : 0)]. *)
Definition getElapsedMs (t : Timer) (now : Z) : Z :=
  accumulatedMs t + (if running t then openDelta t now else 0).

(** Modelled from the spec: [toggle] of the Elapsed-Time Engine. *)
Definition toggle (t : Timer) (now : Z) : Timer :=
  if running t
  then mkTimer (id t) (name t) false (accumulatedMs t + openDelta t now) None
  else mkTimer (id t) (name t) true (accumulatedMs t) (Some now).

(** Modelled from the spec: [recordMark] of the Mark Ledger. *)
Definition recordMark (s : SubChannel) (action : Chart.MarkAction)
    (headElapsedMsAtEvent : Z) : SubChannel :=
  mkSub (subTimer s) (marks s ++ [Chart.mkMark action headElapsedMsAtEvent]).

(** Modelled from the spec: what the head's pause does to one sub channel:
    a running one is paused and gets a [pause] mark at the head's elapsed
    time, another one is left alone. *)
Definition pauseWithHead (now headElapsedMs : Z) (s : SubChannel)
    : SubChannel :=
  if running (subTimer s)
  then recordMark (mkSub (toggle (subTimer s) now) (marks s))
                  Chart.pause headElapsedMs
  else s.

(** Modelled from the spec: [toggleHeadChannel] of the Channel Hierarchy
    Manager (section 4.3), which the [useStopwatch] hook implements; the
    hook is imported by the pages and components but its file is not among
    the sources. *)
Definition toggleHeadChannel (headChannels : list HeadChannel)
    (headId : string) (now : Z) : list HeadChannel :=
  map (fun h =>
         if negb (String.eqb (id (headTimer h)) headId) then h
         else if running (headTimer h)
         then mkHead (toggle (headTimer h) now)
                     (map (pauseWithHead now (getElapsedMs (headTimer h) now))
                          (subChannels h))
         else mkHead (toggle (headTimer h) now) (subChannels h))
      headChannels.

(** C4: pausing a running head through [toggleHeadChannel] turns every
    running sub channel of that head to not running and appends to it
    exactly one [pause] mark whose time is the head's elapsed time at the
    pause, the same for all of them; sub channels that were not running are
    unchanged; and starting a head that was not running leaves all its sub
    channels as they were. *)
Theorem toggleHeadChannel_cascade :
  forall (headChannels : list HeadChannel) (headId : string) (now : Z)
         (i : nat) (h : HeadChannel),
    nth_error headChannels i = Some h ->
    id (headTimer h) = headId ->
    exists h' : HeadChannel,
      nth_error (toggleHeadChannel headChannels headId now) i = Some h'
      /\ running (headTimer h') = negb (running (headTimer h))
      /\ (running (headTimer h) = true ->
          length (subChannels h') = length (subChannels h)
          /\ forall (j : nat) (s : SubChannel),
               nth_error (subChannels h) j = Some s ->
               exists s' : SubChannel,
                 nth_error (subChannels h') j = Some s'
                 /\ (running (subTimer s) = true ->
                     running (subTimer s') = false
                     /\ marks s'
                        = marks s
                          ++ [Chart.mkMark Chart.pause
                                (getElapsedMs (headTimer h) now)])
                 /\ (running (subTimer s) = false -> s' = s))
      /\ (running (headTimer h) = false ->
          subChannels h' = subChannels h).
Proof.
  intros hs headId now i h Hi Hid.
  unfold toggleHeadChannel. rewrite nth_error_map, Hi. cbn [option_map].
  rewrite Hid, String.eqb_refl. cbn [negb].
  destruct (running (headTimer h)) eqn:Hrun.
  - eexists. split; [reflexivity|]. cbn [headTimer subChannels].
    split; [unfold toggle; rewrite Hrun; reflexivity|].
    split; [|discriminate].
    intros _. split; [apply length_map|].
    intros j s Hj. rewrite nth_error_map, Hj. cbn [option_map].
    eexists. split; [reflexivity|].
    unfold pauseWithHead. split; intros Hs; rewrite Hs.
    + unfold recordMark, toggle. rewrite Hs. split; reflexivity.
    + reflexivity.
  - eexists. split; [reflexivity|]. cbn [headTimer subChannels].
    split; [unfold toggle; rewrite Hrun; reflexivity|].
    split; [discriminate | reflexivity].
Qed.

Lemma toggleHeadChannel_cascade_witness :
  exists h' : HeadChannel,
    nth_error
      (toggleHeadChannel
         [mkHead (mkTimer "h" "Head 1" true 0 (Some 0))
                 [mkSub (mkTimer "a" "Sub 1" true 0 (Some 30000))
                        [Chart.mkMark Chart.start 30000];
                  mkSub (mkTimer "b" "Sub 2" true 0 (Some 40000))
                        [Chart.mkMark Chart.start 40000]]]
         "h" 120000)
      0
    = Some h'
    /\ running (headTimer h') = false.
Proof.
  destruct (toggleHeadChannel_cascade
              [mkHead (mkTimer "h" "Head 1" true 0 (Some 0))
                      [mkSub (mkTimer "a" "Sub 1" true 0 (Some 30000))
                             [Chart.mkMark Chart.start 30000];
                       mkSub (mkTimer "b" "Sub 2" true 0 (Some 40000))
                             [Chart.mkMark Chart.start 40000]]]
              "h" 120000 0%nat
              (mkHead (mkTimer "h" "Head 1" true 0 (Some 0))
                      [mkSub (mkTimer "a" "Sub 1" true 0 (Some 30000))
                             [Chart.mkMark Chart.start 30000];
                       mkSub (mkTimer "b" "Sub 2" true 0 (Some 40000))
                             [Chart.mkMark Chart.start 40000]])
              eq_refl eq_refl)
    as (h' & Hnth & Hrun & _).
  exists h'. split; [exact Hnth | exact Hrun].
Defined.

End Stopwatch.

(** ** components/TimelineChart.tsx: how the derived intervals follow the ledger *)

Module ChartLedger.

Import Chart.

(** Number of [start] marks, of [pause] marks. *)
Definition starts (marks : list SubChannelMark) : nat :=
  length (List.filter isStart marks).

Definition pauses (marks : list SubChannelMark) : nat :=
  length (List.filter isPause marks).

(** [SubChannelCard]: [subChannel.marks[subChannel.marks.length - 1]], the
    mark shown under the timer; nothing for an empty ledger. *)
Definition lastMark (marks : list SubChannelMark) : option SubChannelMark :=
  last marks.

(** Where an interval's end comes from: a recorded [pause], or the head's
    elapsed time for the segment still running. *)
Definition endFrom (marks : list SubChannelMark) (r : bool) (h : Z)
    (i : TimelineInterval) : Prop :=
  In (mkMark pause (endMs i)) marks \/ (r = true /\ endMs i = h).

Lemma calculateIntervals_app (marks more : list SubChannelMark)
    (r : bool) (h : Z) :
  calculateIntervals (marks ++ more) r h
  = fst (fold_left loopBody marks ([], None))
    ++ scan (snd (fold_left loopBody marks ([], None))) more r h.
Proof.
  unfold calculateIntervals. rewrite fold_left_app.
  destruct (fold_left loopBody marks ([], None)) as [ivs open].
  apply fold_loopBody_scan.
Qed.

Lemma calculateIntervals_paused (marks : list SubChannelMark) (h : Z) :
  calculateIntervals marks false h
  = fst (fold_left loopBody marks ([], None)).
Proof.
  unfold calculateIntervals, finish.
  destruct (fold_left loopBody marks ([], None)) as [ivs open]. reflexivity.
Qed.

Lemma calculateIntervals_running (marks : list SubChannelMark) (h : Z) :
  calculateIntervals marks true h
  = fst (fold_left loopBody marks ([], None))
    ++ match snd (fold_left loopBody marks ([], None)) with
       | Some s => [mkInterval s h]
       | None => []
       end.
Proof.
  unfold calculateIntervals, finish.
  destruct (fold_left loopBody marks ([], None)) as [ivs [s|]]; simpl;
    [reflexivity | rewrite app_nil_r; reflexivity].
Qed.

(** X1: recording a [pause] at head time [t] leaves exactly the intervals the
    chart showed live at head time [t], whatever flag and head time the
    chart is drawn with afterwards. *)
Theorem pause_mark_freezes_live_intervals :
  forall (marks : list SubChannelMark) (t : Z) (r : bool) (h : Z),
    calculateIntervals (marks ++ [mkMark pause t]) r h
    = calculateIntervals marks true t.
Proof.
  intros marks t r h.
  rewrite calculateIntervals_app, calculateIntervals_running.
  destruct (snd (fold_left loopBody marks ([], None))) as [s|];
    destruct r; reflexivity.
Qed.

(** X2: recording a [start] at head time [t] on a running sub channel adds one
    live interval from [t] to the head's elapsed time after the intervals
    closed so far; a start left open before it is dropped. *)
Theorem start_mark_opens_live_interval :
  forall (marks : list SubChannelMark) (t h h0 : Z),
    calculateIntervals (marks ++ [mkMark start t]) true h
    = calculateIntervals marks false h0 ++ [mkInterval t h].
Proof.
  intros marks t h h0.
  rewrite calculateIntervals_app, calculateIntervals_paused. reflexivity.
Qed.

(** X3: later marks never rewrite an interval that is already closed: the
    intervals of a ledger, drawn as paused, are a prefix of the intervals of
    every extension of the ledger. *)
Theorem closed_intervals_are_stable :
  forall (marks more : list SubChannelMark) (r : bool) (h h0 : Z),
    exists rest : list TimelineInterval,
      calculateIntervals (marks ++ more) r h
      = calculateIntervals marks false h0 ++ rest.
Proof.
  intros marks more r h h0. eexists.
  rewrite calculateIntervals_app, calculateIntervals_paused. reflexivity.
Qed.

Lemma scan_endpoints (marks : list SubChannelMark) :
  forall (open : option Z) (r : bool) (h : Z),
    Forall (fun i =>
              (open = Some (startMs i) \/ In (mkMark start (startMs i)) marks)
              /\ endFrom marks r h i)
           (scan open marks r h).
Proof.
  unfold endFrom.
  induction marks as [|m rest IH]; intros open r h.
  - simpl. destruct open as [s|]; [destruct r|].
    + constructor; [|constructor].
      simpl. split; [left; reflexivity | right; split; reflexivity].
    + constructor.
    + constructor.
  - destruct m as [[|] t]; cbn [scan action headTimeMs].
    + eapply List.Forall_impl; [|apply (IH (Some t) r h)].
      intros i [[Hs|Hs] He].
      * inversion Hs; subst. split; [right; left; reflexivity|].
        destruct He as [He|He]; [left; right; exact He | right; exact He].
      * split; [right; right; exact Hs|].
        destruct He as [He|He]; [left; right; exact He | right; exact He].
    + assert (Hrest : Forall (fun i =>
                 (open = Some (startMs i)
                  \/ In (mkMark start (startMs i)) (mkMark pause t :: rest))
                 /\ (In (mkMark pause (endMs i)) (mkMark pause t :: rest)
                     \/ r = true /\ endMs i = h))
                (scan None rest r h)).
      { eapply List.Forall_impl; [|apply (IH None r h)].
        intros i [[Hs|Hs] He]; [discriminate|].
        split; [right; right; exact Hs|].
        destruct He as [He|He]; [left; right; exact He | right; exact He]. }
      destruct open as [s|]; [|exact Hrest].
      constructor; [|exact Hrest].
      simpl. split; [left; reflexivity | left; left; reflexivity].
Qed.

(** X4: every derived interval starts at the time of a recorded [start] mark
    and ends at the time of a recorded [pause] mark, or, for a running sub
    channel, at the head's elapsed time: no other value ever appears. *)
Theorem interval_endpoints_come_from_marks :
  forall (marks : list SubChannelMark) (r : bool) (h : Z),
    Forall (fun i => In (mkMark start (startMs i)) marks
                     /\ endFrom marks r h i)
           (calculateIntervals marks r h).
Proof.
  intros marks r h. rewrite calculateIntervals_scan.
  eapply List.Forall_impl; [|apply (scan_endpoints marks None r h)].
  intros i [[Hs|Hs] He]; [discriminate | split; assumption].
Qed.

Lemma scan_at_most_starts (marks : list SubChannelMark) :
  forall (open : option Z) (r : bool) (h : Z),
    (length (scan open marks r h)
     <= match open with Some _ => 1 | None => 0 end + starts marks)%nat.
Proof.
  unfold starts.
  induction marks as [|m rest IH]; intros open r h.
  - simpl. destruct open, r; simpl; lia.
  - destruct m as [[|] t]; simpl.
    + specialize (IH (Some t) r h). simpl in IH. destruct open; lia.
    + destruct open as [s|]; simpl; specialize (IH None r h); simpl in IH; lia.
Qed.

Lemma scan_paused_at_most_pauses (marks : list SubChannelMark) :
  forall (open : option Z) (h : Z),
    (length (scan open marks false h) <= pauses marks)%nat.
Proof.
  unfold pauses.
  induction marks as [|m rest IH]; intros open h.
  - simpl. destruct open; simpl; lia.
  - destruct m as [[|] t]; simpl.
    + apply IH.
    + destruct open as [s|]; simpl; specialize (IH None h); lia.
Qed.

(** X5: the chart never draws more intervals than there are [start] marks, and
    for a sub channel that is not running never more than there are [pause]
    marks; an empty ledger gives no interval. *)
Theorem interval_count_bounds :
  forall (marks : list SubChannelMark) (r : bool) (h : Z),
    (length (calculateIntervals marks r h) <= starts marks)%nat
    /\ (length (calculateIntervals marks false h) <= pauses marks)%nat
    /\ calculateIntervals [] r h = [].
Proof.
  intros marks r h. rewrite !calculateIntervals_scan.
  split; [apply (scan_at_most_starts marks None)|].
  split; [apply scan_paused_at_most_pauses | destruct r; reflexivity].
Qed.

Lemma fold_loopBody_open (marks : list SubChannelMark) :
  forall st : LoopState,
    marks <> [] ->
    endsWithStart marks = false ->
    snd (fold_left loopBody marks st) = None.
Proof.
  induction marks as [|m rest IH]; intros st Hne Hend; [congruence|].
  destruct rest as [|m' rest'].
  - simpl in *. destruct st as [ivs open]. unfold loopBody, isStart in *.
    destruct (action m); [discriminate|]. destruct open; reflexivity.
  - cbn [fold_left]. apply IH; [discriminate | exact Hend].
Qed.

(** X6: the head's elapsed time matters only for a segment that is still
    running: drawn as not running, or for a ledger whose last mark is a
    [pause], the intervals are the same at every head time (and, in the
    second case, for either flag). *)
Theorem head_time_moves_only_the_live_interval :
  forall (marks : list SubChannelMark) (r1 r2 : bool) (h1 h2 : Z),
    calculateIntervals marks false h1 = calculateIntervals marks false h2
    /\ (endsWithStart marks = false ->
        calculateIntervals marks r1 h1 = calculateIntervals marks r2 h2).
Proof.
  intros marks r1 r2 h1 h2. split.
  - rewrite !calculateIntervals_paused. reflexivity.
  - intros Hend. destruct marks as [|m rest].
    + destruct r1, r2; reflexivity.
    + assert (Hopen : snd (fold_left loopBody (m :: rest) ([], None)) = None).
      { apply fold_loopBody_open; [discriminate | exact Hend]. }
      unfold calculateIntervals, finish.
      destruct (fold_left loopBody (m :: rest) ([], None)) as [ivs open].
      simpl in Hopen. subst open. destruct r1, r2; reflexivity.
Qed.

Lemma head_time_moves_only_the_live_interval_witness :
  calculateIntervals [mkMark start 30000; mkMark pause 90000] true 95000
  = calculateIntervals [mkMark start 30000; mkMark pause 90000] false 120000.
Proof.
  apply (head_time_moves_only_the_live_interval
           [mkMark start 30000; mkMark pause 90000] true false 95000 120000).
  reflexivity.
Defined.

(** X7: the mark the card shows and the interval the chart draws live belong
    together: for a running sub channel whose last mark is a [start], the
    last interval of the chart runs from that mark's time to the head's
    elapsed time; when the last mark is a [pause], the chart draws no live
    interval at all. *)
Theorem live_interval_starts_at_last_mark :
  forall (marks : list SubChannelMark) (m : SubChannelMark) (h : Z),
    lastMark marks = Some m ->
    (action m = start ->
     last (calculateIntervals marks true h)
     = Some (mkInterval (headTimeMs m) h))
    /\ (action m = pause ->
        calculateIntervals marks true h = calculateIntervals marks false h).
Proof.
  intros marks m h Hlast. unfold lastMark in Hlast.
  apply last_Some in Hlast. destruct Hlast as [pre ->].
  rewrite !calculateIntervals_app. destruct m as [a t]. simpl.
  split; intros ->; simpl.
  - apply last_snoc.
  - destruct (snd (fold_left loopBody pre ([], None))); reflexivity.
Qed.

Lemma live_interval_starts_at_last_mark_witness :
  last (calculateIntervals
          [mkMark start 30000; mkMark pause 90000; mkMark start 100000]
          true 120000)
  = Some (mkInterval 100000 120000).
Proof.
  destruct (live_interval_starts_at_last_mark
              [mkMark start 30000; mkMark pause 90000; mkMark start 100000]
              (mkMark start 100000) 120000 eq_refl)
    as [H _].
  exact (H eq_refl).
Defined.

End ChartLedger.

(** ** The time rulers of the visualizations *)

Module Ruler.

(** [for (let i = from; i <= limit; i += step) markers.push(i)], within
    [fuel] tests of the loop condition. *)
Fixpoint countUp (fuel : nat) (i limit step : Z) (markers : list Z)
    : option (list Z) :=
  match fuel with
  | O => None
  | S fuel' =>
      if i <=? limit
      then countUp fuel' (i + step) limit step (markers ++ [i])
      else Some markers
  end.

(** [n] evenly spaced values from [from] on. *)
Definition ticks (from step : Z) (n : nat) : list Z :=
  map (fun k => from + Z.of_nat k * step) (seq 0 n).

(** How many values from [from] on, [step] apart, are at most [limit]. *)
Definition tickCount (from limit step : Z) : nat :=
  if from <=? limit then Z.to_nat ((limit - from) / step + 1) else 0%nat.

(** [TimelineChart]: the axis is the head's elapsed time, at least a
    minute; labels every 10 s, 30 s or 1 min. *)
Definition timelineDuration (headElapsedMs : Z) : Z :=
  Z.max headElapsedMs 60000.

Definition chartStep (timelineDuration : Z) : Z :=
  if 300000 <? timelineDuration then 60000
  else if 60000 <? timelineDuration then 30000
  else 10000.

Definition chartMarkers (fuel : nat) (headElapsedMs : Z) : option (list Z) :=
  countUp fuel 0 (timelineDuration headElapsedMs)
          (chartStep (timelineDuration headElapsedMs)) [].

(** [ImportTimeline]'s [TimelineVisualization]: labels every 1, 2, 5 or 10
    minutes up to the head's total. *)
Definition stepMinutes (totalMinutes : Z) : Z :=
  if 60 <? totalMinutes then 10
  else if 30 <? totalMinutes then 5
  else if 10 <? totalMinutes then 2
  else 1.



(** The clock builder with cutoff timers: a label every 30 minutes from 0,
    and one more at the end when the last one falls short of it. [NaN] as
    the total compares false everywhere: no label at all. *)
Definition cutoffMarkers (fuel : nat) (totalDurationMins : OClock.num)
    : option (list Z) :=
  match totalDurationMins with
  | OClock.NaN => Some []
  | OClock.Int total =>
      match countUp fuel 0 total 30 [] with
      | Some markers =>
          let accumulatedMins :=
            match last markers with Some i => i | None => 0 end in
          Some (if accumulatedMins <? total then markers ++ [total]
                else markers)
      | None => None
      end
  end.

(** The clock builder without cutoff timers: labels from the head's start
    to its end, and the end itself when the last label is not the end. *)
Definition clockStep (totalDurationMins : OClock.num) : Z :=
  match totalDurationMins with
  | OClock.Int total =>
      if 360 <? total then 60
      else if 120 <? total then 30
      else if 60 <? total then 15
      else 10
  | OClock.NaN => 10
  end.

(** [a !== b] on numbers: [NaN] differs from everything. *)
Definition differs (a : option OClock.num) (b : OClock.num) : bool :=
  match a, b with
  | Some (OClock.Int x), OClock.Int y => negb (x =? y)
  | _, _ => true
  end.

Definition clockMarkers (fuel : nat) (headStartMins headEndMins : OClock.num)
    : option (list OClock.num) :=
  let stepMinutes := clockStep (OClock.nsub headEndMins headStartMins) in
  let looped :=
    match headStartMins, headEndMins with
    | OClock.Int a, OClock.Int b => countUp fuel a b stepMinutes []
    | _, _ => Some []
    end in
  match looped with
  | Some l =>
      let timeMarkers := map OClock.Int l in
      Some (if differs (last timeMarkers) headEndMins
            then timeMarkers ++ [headEndMins]
            else timeMarkers)
  | None => None
  end.

(** *** The loop in closed form *)

Lemma ticks_S (from step : Z) (n : nat) :
  ticks from step (S n) = from :: ticks (from + step) step n.
Proof.
  unfold ticks. cbn [seq map]. f_equal; [lia|].
  rewrite <- seq_shift, map_map. apply map_ext.
  intros k. rewrite Nat2Z.inj_succ. lia.
Qed.

Lemma countUp_exact (limit step : Z) (n : nat) :
  forall (fuel : nat) (i : Z) (acc : list Z),
    0 < step ->
    (n < fuel)%nat ->
    limit < i + Z.of_nat n * step ->
    (n <> 0%nat -> i + (Z.of_nat n - 1) * step <= limit) ->
    countUp fuel i limit step acc = Some (acc ++ ticks i step n).
Proof.
  induction n as [|n IH]; intros fuel i acc Hstep Hfuel Hover Hunder.
  - destruct fuel as [|fuel]; [lia|]. simpl.
    destruct (Z.leb_spec i limit); [lia|].
    unfold ticks. simpl. rewrite app_nil_r. reflexivity.
  - destruct fuel as [|fuel]; [lia|]. cbn [countUp].
    assert (Hi : i <= limit).
    { specialize (Hunder ltac:(lia)). nia. }
    destruct (Z.leb_spec i limit); [|lia].
    rewrite (IH fuel (i + step) (acc ++ [i]) Hstep).
    + rewrite ticks_S, <- app_assoc. reflexivity.
    + lia.
    + lia.
    + intros Hn. specialize (Hunder ltac:(lia)). lia.
Qed.

Lemma tickCount_spec (from limit step : Z) :
  0 < step ->
  limit < from + Z.of_nat (tickCount from limit step) * step
  /\ (tickCount from limit step <> 0%nat ->
      from + (Z.of_nat (tickCount from limit step) - 1) * step <= limit).
Proof.
  intros Hstep. unfold tickCount.
  destruct (Z.leb_spec from limit) as [Hle|Hgt].
  - pose proof (Z.div_pos (limit - from) step ltac:(lia) Hstep) as Hq.
    pose proof (Z.mul_div_le (limit - from) step Hstep) as Hlow.
    pose proof (Z.mul_succ_div_gt (limit - from) step Hstep) as Hhigh.
    rewrite Z2Nat.id by lia. split; [lia | intros _; lia].
  - simpl. split; [lia | congruence].
Qed.

(** With a positive step the loop ends, and what it pushed is the closed
    form. *)
Lemma countUp_ticks (fuel : nat) (from limit step : Z) :
  0 < step ->
  (tickCount from limit step < fuel)%nat ->
  countUp fuel from limit step []
  = Some (ticks from step (tickCount from limit step)).
Proof.
  intros Hstep Hfuel.
  destruct (tickCount_spec from limit step Hstep) as [Hover Hunder].
  apply (countUp_exact limit step _ fuel from [] Hstep Hfuel Hover Hunder).
Qed.

Lemma ticks_bounds (from limit step : Z) :
  0 < step ->
  Forall (fun x => from <= x <= limit)
         (ticks from step (tickCount from limit step)).
Proof.
  intros Hstep.
  destruct (tickCount_spec from limit step Hstep) as [_ Hunder].
  unfold ticks. apply List.Forall_forall. intros x Hx.
  apply in_map_iff in Hx. destruct Hx as (k & <- & Hk).
  apply in_seq in Hk.
  specialize (Hunder ltac:(lia)). nia.
Qed.

Lemma ticks_increasing (from step : Z) (n : nat) :
  0 < step -> StronglySorted Z.lt (ticks from step n).
Proof.
  intros Hstep. revert from.
  induction n as [|n IH]; intros from; [constructor|].
  rewrite ticks_S. constructor; [apply IH|].
  unfold ticks. apply List.Forall_forall. intros x Hx.
  apply in_map_iff in Hx. destruct Hx as (k & <- & _). nia.
Qed.

Lemma last_ticks (from step : Z) (n : nat) :
  last (ticks from step (S n)) = Some (from + Z.of_nat n * step).
Proof.
  unfold ticks. rewrite seq_S, map_app. simpl.
  rewrite last_snoc. reflexivity.
Qed.

Lemma chartStep_positive (d : Z) : 0 < chartStep d.
Proof.
  unfold chartStep.
  destruct (300000 <? d); [lia|]. destruct (60000 <? d); lia.
Qed.


Lemma clockStep_positive (t : OClock.num) : 0 < clockStep t.
Proof.
  unfold clockStep. destruct t as [|z]; [lia|].
  destruct (360 <? z); [lia|]. destruct (120 <? z); [lia|].
  destruct (60 <? z); lia.
Qed.

Lemma ticks_snoc (from step : Z) (n : nat) :
  ticks from step (S n) = ticks from step n ++ [from + Z.of_nat n * step].
Proof. unfold ticks. rewrite seq_S, map_app. reflexivity. Qed.

Lemma tickCount_S (from limit step : Z) :
  0 < step -> from <= limit ->
  exists n : nat,
    tickCount from limit step = S n
    /\ from + Z.of_nat n * step <= limit < from + (Z.of_nat n + 1) * step.
Proof.
  intros Hstep Hle.
  destruct (tickCount_spec from limit step Hstep) as [Hover Hunder].
  destruct (tickCount from limit step) as [|n] eqn:E.
  - simpl in Hover. lia.
  - exists n. split; [reflexivity|].
    specialize (Hunder ltac:(lia)). rewrite Nat2Z.inj_succ in *. lia.
Qed.

Lemma StronglySorted_snoc (l : list Z) (a : Z) :
  StronglySorted Z.lt l -> Forall (fun x => x < a) l ->
  StronglySorted Z.lt (l ++ [a]).
Proof.
  induction l as [|x l IH]; intros Hs Hall; simpl.
  - repeat constructor.
  - apply StronglySorted_inv in Hs. destruct Hs as [Hs Hx].
    apply Forall_cons_iff in Hall. destruct Hall as [Hxa Hall].
    constructor; [apply IH; assumption|].
    apply Forall_app. split; [exact Hx | repeat constructor; exact Hxa].
Qed.

Lemma ticks_upto (from step : Z) (n : nat) :
  0 < step ->
  Forall (fun x => from <= x <= from + Z.of_nat n * step)
         (ticks from step (S n)).
Proof.
  intros Hstep. unfold ticks. apply List.Forall_forall. intros x Hx.
  apply in_map_iff in Hx. destruct Hx as (k & <- & Hk).
  apply in_seq in Hk. nia.
Qed.

(** A ruler of [S n] ticks whose last tick is at or before [b], closed with
    [b] itself when the last tick falls short of it. *)
Lemma closed_ruler (a b step : Z) (n : nat) :
  0 < step ->
  a + Z.of_nat n * step <= b ->
  let l := if a + Z.of_nat n * step <? b
           then ticks a step (S n) ++ [b]
           else ticks a step (S n) in
  hd_error l = Some a
  /\ last l = Some b
  /\ StronglySorted Z.lt l
  /\ Forall (fun x => a <= x <= b) l.
Proof.
  intros Hstep Hle l. subst l.
  pose proof (ticks_increasing a step (S n) Hstep) as Hsorted.
  pose proof (ticks_upto a step n Hstep) as Hbelow.
  destruct (Z.ltb_spec (a + Z.of_nat n * step) b) as [Hlt|Hge].
  - split; [rewrite ticks_S; reflexivity|].
    split; [apply last_snoc|]. split.
    + apply StronglySorted_snoc; [exact Hsorted|].
      eapply List.Forall_impl; [|exact Hbelow]. simpl. intros x Hx. lia.
    + apply Forall_app. split.
      * eapply List.Forall_impl; [|exact Hbelow]. simpl. intros x Hx. lia.
      * repeat constructor; lia.
  - split; [rewrite ticks_S; reflexivity|].
    split; [rewrite ticks_snoc, last_snoc; f_equal; lia|].
    split; [exact Hsorted|].
    eapply List.Forall_impl; [|exact Hbelow]. simpl. intros x Hx. lia.
Qed.

(** *** The four rulers *)

(** X8: the chart's time axis is at least a minute long; its labels start at 0,
    are evenly spaced by the chosen step, strictly increase, never lie
    beyond the end of the axis, and the last one is less than a step before
    the end. Up to one minute of head time they are 0 s, 10 s, ..., 60 s. *)
Theorem chartMarkers_ruler :
  forall (fuel : nat) (headElapsedMs : Z),
    let d := timelineDuration headElapsedMs in
    (tickCount 0 d (chartStep d) < fuel)%nat ->
    exists n : nat,
      chartMarkers fuel headElapsedMs = Some (ticks 0 (chartStep d) (S n))
      /\ 60000 <= d
      /\ StronglySorted Z.lt (ticks 0 (chartStep d) (S n))
      /\ Forall (fun x => 0 <= x <= d) (ticks 0 (chartStep d) (S n))
      /\ d - chartStep d < Z.of_nat n * chartStep d <= d
      /\ (headElapsedMs <= 60000 ->
          chartMarkers fuel headElapsedMs
          = Some [0; 10000; 20000; 30000; 40000; 50000; 60000]).
Proof.
  intros fuel h d Hfuel.
  assert (Hd : 60000 <= d) by (subst d; unfold timelineDuration; lia).
  pose proof (chartStep_positive d) as Hstep.
  destruct (tickCount_S 0 d (chartStep d) Hstep ltac:(lia)) as (n & Hn & Hr).
  pose proof (countUp_ticks fuel 0 d (chartStep d) Hstep Hfuel) as Hrun.
  pose proof (ticks_bounds 0 d (chartStep d) Hstep) as Hb.
  rewrite Hn in Hrun, Hb.
  exists n. split; [exact Hrun|]. split; [exact Hd|].
  split; [apply ticks_increasing; exact Hstep|].
  split; [exact Hb|]. split; [lia|].
  intros Hh. unfold chartMarkers. fold d.
  assert (Hd60 : d = 60000) by (subst d; unfold timelineDuration; lia).
  rewrite Hd60 in *. rewrite Hrun.
  assert (n = 6%nat).
  { change (chartStep 60000) with 10000 in Hr. lia. }
  subst n. reflexivity.
Qed.

Lemma chartMarkers_ruler_witness :
  exists n : nat,
    chartMarkers 20 95000 = Some (ticks 0 30000 (S n)).
Proof.
  destruct (chartMarkers_ruler 20 95000) as (n & Hrun & _).
  - vm_compute. lia.
  - exists n. exact Hrun.
Defined.



(** X10: the ruler of the builder with cutoff timers, for a head of positive
    duration: its labels are 0, 30, 60, ... up to the last multiple of 30
    that is not beyond the duration, followed by the duration itself
    exactly when the duration is not a multiple of 30. So it starts at 0,
    strictly increases, stays within the duration, and always ends exactly
    at the duration. With [NaN] as the duration there is no label. *)
Theorem cutoffMarkers_ruler :
  forall (fuel : nat) (total : Z),
    0 < total ->
    (tickCount 0 total 30 < fuel)%nat ->
    let markers :=
      ticks 0 30 (S (Z.to_nat (total / 30)))
      ++ (if total mod 30 =? 0 then [] else [total]) in
    cutoffMarkers fuel (OClock.Int total) = Some markers
    /\ hd_error markers = Some 0
    /\ last markers = Some total
    /\ StronglySorted Z.lt markers
    /\ Forall (fun x => 0 <= x <= total) markers
    /\ cutoffMarkers fuel OClock.NaN = Some [].
Proof.
  intros fuel total Htot Hfuel.
  destruct (tickCount_S 0 total 30 ltac:(lia) ltac:(lia)) as (n & Hn & Hr).
  assert (Hdiv : total / 30 = Z.of_nat n).
  { symmetry. apply (Z.div_unique total 30 (Z.of_nat n) (total - 30 * Z.of_nat n));
      lia. }
  assert (Hmod : total mod 30 = total - 30 * Z.of_nat n).
  { pose proof (Z.div_mod total 30 ltac:(lia)). rewrite Hdiv in *. lia. }
  rewrite Hdiv, Nat2Z.id, Hmod.
  assert (HL : ticks 0 30 (S n)
               ++ (if total - 30 * Z.of_nat n =? 0 then [] else [total])
               = if 0 + Z.of_nat n * 30 <? total
                 then ticks 0 30 (S n) ++ [total]
                 else ticks 0 30 (S n)).
  { destruct (Z.ltb_spec (0 + Z.of_nat n * 30) total);
      destruct (Z.eqb_spec (total - 30 * Z.of_nat n) 0); try lia;
      [reflexivity | apply app_nil_r]. }
  cbv zeta. rewrite HL.
  pose proof (closed_ruler 0 total 30 n ltac:(lia) ltac:(lia)) as Hclosed.
  cbv zeta in Hclosed. destruct Hclosed as (Hhd & Hlast & Hsorted & Hall).
  split.
  - unfold cutoffMarkers.
    rewrite (countUp_ticks fuel 0 total 30 ltac:(lia) Hfuel), Hn.
    rewrite last_ticks. reflexivity.
  - repeat split; try assumption.
Qed.

Lemma cutoffMarkers_ruler_witness :
  cutoffMarkers 20 (OClock.Int 100) = Some [0; 30; 60; 90; 100].
Proof.
  destruct (cutoffMarkers_ruler 20 100) as (Hrun & _).
  - lia.
  - vm_compute. lia.
  - exact Hrun.
Defined.

(** X11: the ruler of the clock builder, for a head whose end is after its
    start: it starts at the head's start, strictly increases, stays within
    the head's range, and always ends exactly at the head's end. *)
Theorem clockMarkers_ruler :
  forall (fuel : nat) (a b : Z),
    a < b ->
    (tickCount a b (clockStep (OClock.Int (b - a))) < fuel)%nat ->
    exists markers : list Z,
      clockMarkers fuel (OClock.Int a) (OClock.Int b)
      = Some (map OClock.Int markers)
      /\ hd_error markers = Some a
      /\ last markers = Some b
      /\ StronglySorted Z.lt markers
      /\ Forall (fun x => a <= x <= b) markers.
Proof.
  intros fuel a b Hab Hfuel.
  pose proof (clockStep_positive (OClock.Int (b - a))) as Hstep.
  destruct (tickCount_S a b _ Hstep ltac:(lia)) as (n & Hn & Hr).
  unfold clockMarkers. cbn [OClock.nsub].
  rewrite (countUp_ticks fuel a b _ Hstep Hfuel), Hn.
  set (step := clockStep (OClock.Int (b - a))) in *.
  pose proof (closed_ruler a b step n Hstep ltac:(lia)) as Hclosed.
  cbv zeta in Hclosed.
  assert (Hlast : last (map OClock.Int (ticks a step (S n)))
                  = Some (OClock.Int (a + Z.of_nat n * step))).
  { rewrite ticks_snoc, map_app. apply last_snoc. }
  rewrite Hlast. cbn [differs].
  destruct (Z.ltb_spec (a + Z.of_nat n * step) b) as [Hlt|Hge].
  - destruct (Z.eqb_spec (a + Z.of_nat n * step) b) as [He|Hne]; [lia|].
    cbn [negb]. exists (ticks a step (S n) ++ [b]).
    split; [|exact Hclosed].
    rewrite map_app. reflexivity.
  - destruct (Z.eqb_spec (a + Z.of_nat n * step) b) as [He|Hne]; [|lia].
    cbn [negb]. exists (ticks a step (S n)).
    split; [reflexivity | exact Hclosed].
Qed.

Lemma clockMarkers_ruler_witness :
  exists markers : list Z,
    clockMarkers 20 (OClock.Int 420) (OClock.Int 845)
    = Some (map OClock.Int markers)
    /\ last markers = Some 845.
Proof.
  destruct (clockMarkers_ruler 20 420 845) as (markers & Hrun & _ & Hlast & _).
  - lia.
  - vm_compute. lia.
  - exists markers. split; assumption.
Defined.

End Ruler.

(** ** components/ImportTimeline.tsx: how the operations act on the collection *)

Module BuilderOps.

Import Builder.

(** The head an operation addresses. *)
Definition targetHead (op : Operation) : string :=
  match op with
  | OpAddSubChannel headId _ => headId
  | OpDeleteSubChannel headId _ => headId
  | OpUpdateSubChannel headId _ _ => headId
  | OpAddInterval headId _ _ => headId
  | OpDeleteInterval headId _ _ => headId
  | OpUpdateInterval headId _ _ _ => headId
  | OpUpdateHeadChannel headId _ => headId
  end.

(** [sub.intervals.reduce((acc, int) => acc + (int.endMin - int.startMin) * 60 * 1000, 0)]
    of [TimelineVisualization]. *)
Definition totalActiveMs (sub : ImportSubChannel) : Z :=
  fold_left (fun acc int => acc + (endMin int - startMin int) * 60 * 1000)
            (intervals sub) 0.

(** Pressing "Add Timeline" once per id of [ids]. *)
Definition addIntervals (hs : list ImportHeadChannel)
    (headId subId : string) (ids : list string) : list ImportHeadChannel :=
  fold_left (fun hs newId => addInterval hs headId subId newId) ids hs.

(** The bounds of the [n] intervals that [n] presses give a fresh sub
    channel on a head of [total] minutes. *)
Definition chained (total : Z) (n : nat) : list (Z * Z) :=
  map (fun k => (Z.min (5 * Z.of_nat k) total,
                 Z.min (5 * Z.of_nat k + 5) total))
      (seq 0 n).

Definition bounds (s : ImportSubChannel) : list (Z * Z) :=
  map (fun i => (startMin i, endMin i)) (intervals s).

(** What holds of every head after any events at all: a positive total,
    and intervals that start at 0 or later and end at 1 or later. *)
Definition sane (h : ImportHeadChannel) : Prop :=
  1 <= totalMinutes h
  /\ Forall (fun s => Forall (fun i => 0 <= startMin i /\ 1 <= endMin i)
                             (intervals s))
            (subChannels h).

(** *** Other heads, and the shape of the collection *)

Lemma nth_error_map_heads (hs : list ImportHeadChannel) (headId : string)
    (g : ImportHeadChannel -> ImportHeadChannel) (i : nat)
    (h : ImportHeadChannel) :
  nth_error hs i = Some h -> head_id h <> headId ->
  nth_error
    (map (fun h => if negb (String.eqb (head_id h) headId) then h else g h) hs)
    i
  = Some h.
Proof.
  intros Hi Hne. rewrite nth_error_map, Hi. simpl.
  destruct (String.eqb_spec (head_id h) headId); [contradiction|reflexivity].
Qed.

(** X12: an operation addressed to one head never touches another: the
    collection keeps its length, and every head with a different id stays
    at its position, unchanged. *)
Theorem other_heads_untouched :
  forall (hs : list ImportHeadChannel) (op : Operation),
    length (perform hs op) = length hs
    /\ forall (i : nat) (h : ImportHeadChannel),
         nth_error hs i = Some h ->
         head_id h <> targetHead op ->
         nth_error (perform hs op) i = Some h.
Proof.
  intros hs op. split.
  - destruct op; simpl; apply length_map.
  - intros i h Hi Hne.
    destruct op; simpl in *;
      try (apply nth_error_map_heads; assumption).
    unfold updateHeadChannel. rewrite nth_error_map, Hi. simpl.
    destruct (String.eqb_spec (head_id h) headId); [contradiction|reflexivity].
Qed.

Lemma other_heads_untouched_witness :
  nth_error
    (perform [mkHead "a" "Head 1" 60 [mkSub "s" "Sub 1" [] true] true;
              mkHead "b" "Head 2" 30 [mkSub "s" "Sub 1" [] true] true]
             (OpAddInterval "a" "s" "n"))
    1
  = Some (mkHead "b" "Head 2" 30 [mkSub "s" "Sub 1" [] true] true).
Proof.
  apply other_heads_untouched; [reflexivity | discriminate].
Defined.

(** *** Deleting *)

Lemma existsb_filter_out {A : Type} (p : A -> bool) (l : list A) :
  existsb p (List.filter (fun x => negb (p x)) l) = false.
Proof.
  induction l as [|a l IH]; simpl; [reflexivity|].
  destruct (p a) eqn:E; simpl; [exact IH | rewrite E; exact IH].
Qed.

Lemma existsb_map {A B : Type} (p : B -> bool) (g : A -> B) (l : list A) :
  existsb p (map g l) = existsb (fun x => p (g x)) l.
Proof.
  induction l as [|a l IH]; simpl; [reflexivity | rewrite IH; reflexivity].
Qed.

Lemma existsb_all_false {A : Type} (p : A -> bool) (l : list A) :
  (forall x, In x l -> p x = false) -> existsb p l = false.
Proof.
  induction l as [|a l IH]; intros H; simpl; [reflexivity|].
  rewrite H by (left; reflexivity). apply IH.
  intros x Hx. apply H. right. exact Hx.
Qed.

(** X13: after [deleteHeadChannel] no head has the deleted id, so neither that
    head nor any sub channel or interval under it can be addressed again;
    the heads that remain are exactly the heads with another id. *)
Theorem deleteHeadChannel_removes :
  forall (hs : list ImportHeadChannel) (headId subId intervalId : string),
    hasHead (deleteHeadChannel hs headId) headId = false
    /\ hasSub (deleteHeadChannel hs headId) headId subId = false
    /\ hasInterval (deleteHeadChannel hs headId) headId subId intervalId
       = false
    /\ forall h : ImportHeadChannel,
         In h (deleteHeadChannel hs headId)
         <-> In h hs /\ head_id h <> headId.
Proof.
  intros hs headId subId intervalId.
  assert (Hgone : forall h, In h (deleteHeadChannel hs headId) ->
                            String.eqb (head_id h) headId = false).
  { intros h Hh. apply filter_In in Hh. destruct Hh as [_ Hh].
    apply negb_true_iff in Hh. exact Hh. }
  split; [|split; [|split]].
  - apply existsb_all_false. exact Hgone.
  - apply existsb_all_false. intros h Hh. rewrite (Hgone h Hh). reflexivity.
  - apply existsb_all_false. intros h Hh. rewrite (Hgone h Hh). reflexivity.
  - intros h. unfold deleteHeadChannel. rewrite filter_In.
    rewrite negb_true_iff, String.eqb_neq. reflexivity.
Qed.

(** X14: after [deleteSubChannel] the head has no sub channel with the deleted
    id, and after [deleteInterval] the sub channel has no interval with the
    deleted id. *)
Theorem delete_removes_target :
  forall (hs : list ImportHeadChannel) (headId subId intervalId : string),
    hasSub (deleteSubChannel hs headId subId) headId subId = false
    /\ hasInterval (deleteInterval hs headId subId intervalId)
                   headId subId intervalId
       = false.
Proof.
  intros hs headId subId intervalId. split.
  - unfold hasSub, deleteSubChannel. rewrite existsb_map.
    apply existsb_all_false. intros h _.
    destruct (String.eqb (head_id h) headId) eqn:E; simpl.
    + rewrite E. simpl. apply existsb_filter_out.
    + rewrite E. reflexivity.
  - unfold hasInterval, deleteInterval. rewrite existsb_map.
    apply existsb_all_false. intros h _.
    destruct (String.eqb (head_id h) headId) eqn:E; simpl;
      [|rewrite E; reflexivity].
    rewrite E. simpl. rewrite existsb_map.
    apply existsb_all_false. intros s _.
    destruct (String.eqb (sub_id s) subId) eqn:Es; simpl;
      [|rewrite Es; reflexivity].
    rewrite Es. simpl. apply existsb_filter_out.
Qed.

(** *** Adding, then deleting *)

Lemma filter_out_snoc {A : Type} (p : A -> bool) (l : list A) (x : A) :
  (forall y, In y l -> p y = false) -> p x = true ->
  List.filter (fun y => negb (p y)) (l ++ [x]) = l.
Proof.
  intros Hl Hx. rewrite List.filter_app. simpl. rewrite Hx. simpl.
  rewrite app_nil_r. apply filter_same.
  intros y Hy. rewrite (Hl y Hy). reflexivity.
Qed.

Lemma not_In_eqb (newId : string) (ids : list string) (x : string) :
  ~ In newId ids -> In x ids -> String.eqb x newId = false.
Proof.
  intros Hnot Hin. apply String.eqb_neq. intros ->. contradiction.
Qed.

(** X15: adding a head, a sub channel or an interval under an id that is not in
    use and deleting it again gives back the collection as it was. *)
Theorem add_then_delete_is_identity :
  forall (hs : list ImportHeadChannel) (headId subId newId : string),
    (isFresh newId (headIds hs) = true ->
     deleteHeadChannel (addHeadChannel hs newId) newId = hs)
    /\ (isFresh newId (subIds hs) = true ->
        deleteSubChannel (addSubChannel hs headId newId) headId newId = hs)
    /\ (isFresh newId (intervalIds hs) = true ->
        deleteInterval (addInterval hs headId subId newId)
                       headId subId newId
        = hs).
Proof.
  intros hs headId subId newId. split; [|split]; intros Hfresh.
  - apply isFresh_not_In in Hfresh.
    unfold deleteHeadChannel, addHeadChannel.
    apply (filter_out_snoc (fun h => String.eqb (head_id h) newId)).
    + intros h Hh. apply (not_In_eqb newId (headIds hs)); [exact Hfresh|].
      apply in_map. exact Hh.
    + apply String.eqb_refl.
  - unfold deleteSubChannel, addSubChannel. rewrite map_map.
    apply map_same. intros h Hh.
    destruct (String.eqb (head_id h) headId) eqn:E; simpl;
      rewrite E; simpl; [|reflexivity].
    rewrite (filter_out_snoc (fun s => String.eqb (sub_id s) newId)).
    + destruct h; reflexivity.
    + intros s Hs.
      apply (not_In_eqb newId (map sub_id (subChannels h))).
      * apply (fresh_sub_id hs h newId Hfresh Hh).
      * apply in_map. exact Hs.
    + apply String.eqb_refl.
  - unfold deleteInterval, addInterval. rewrite map_map.
    apply map_same. intros h Hh.
    destruct (String.eqb (head_id h) headId) eqn:E; simpl;
      rewrite E; simpl; [|reflexivity].
    rewrite map_map.
    transitivity (withSubChannels h (subChannels h));
      [|apply withSubChannels_id].
    unfold withSubChannels. simpl. f_equal.
    apply map_same. intros s Hs.
    destruct (String.eqb (sub_id s) subId) eqn:Es; simpl;
      rewrite Es; simpl; [|reflexivity].
    rewrite (filter_out_snoc (fun i => String.eqb (iv_id i) newId)).
    + destruct s; reflexivity.
    + intros i Hi.
      apply (not_In_eqb newId (map iv_id (intervals s))).
      * apply (fresh_interval_id hs h s newId Hfresh Hh Hs).
      * apply in_map. exact Hi.
    + apply String.eqb_refl.
Qed.

Lemma add_then_delete_is_identity_witness :
  deleteInterval
    (addInterval [mkHead "h" "Head 1" 60
                         [mkSub "s" "Sub 1" [mkInterval "i" 0 5] true] true]
                 "h" "s" "n")
    "h" "s" "n"
  = [mkHead "h" "Head 1" 60 [mkSub "s" "Sub 1" [mkInterval "i" 0 5] true] true].
Proof.
  apply (add_then_delete_is_identity
           [mkHead "h" "Head 1" 60
                   [mkSub "s" "Sub 1" [mkInterval "i" 0 5] true] true]
           "h" "s" "n").
  reflexivity.
Defined.

(** *** Expanding and collapsing *)

(** X16: toggling the expanded flag of a head, or of a sub channel, twice gives
    back the collection as it was. *)
Theorem toggle_expand_twice :
  forall (hs : list ImportHeadChannel) (headId subId : string),
    toggleHeadExpand (toggleHeadExpand hs headId) headId = hs
    /\ toggleSubExpand (toggleSubExpand hs headId subId) headId subId = hs.
Proof.
  intros hs headId subId. split.
  - unfold toggleHeadExpand. rewrite map_map. apply map_same.
    intros h _. destruct (String.eqb (head_id h) headId) eqn:E; simpl;
      rewrite E; [|reflexivity].
    destruct h; simpl. rewrite negb_involutive. reflexivity.
  - unfold toggleSubExpand. rewrite map_map. apply map_same.
    intros h _. destruct (String.eqb (head_id h) headId) eqn:E; simpl;
      rewrite E; simpl; [|reflexivity].
    rewrite map_map.
    transitivity (withSubChannels h (subChannels h));
      [|apply withSubChannels_id].
    unfold withSubChannels. simpl. f_equal.
    apply map_same.
    intros s _. destruct (String.eqb (sub_id s) subId) eqn:Es; simpl;
      rewrite Es; [|reflexivity].
    destruct s; simpl. rewrite negb_involutive. reflexivity.
Qed.

(** *** What no sequence of events can break *)

Lemma sane_heads_map (hs : list ImportHeadChannel)
    (f : ImportHeadChannel -> ImportHeadChannel) :
  Forall sane hs ->
  (forall h, In h hs -> sane h -> sane (f h)) ->
  Forall sane (map f hs).
Proof.
  intros Hall Hf. rewrite List.Forall_forall in *. intros x Hx.
  apply in_map_iff in Hx. destruct Hx as (h & <- & Hh).
  apply (Hf h Hh (Hall h Hh)).
Qed.

Lemma sane_subs_map (h : ImportHeadChannel)
    (g : ImportSubChannel -> ImportSubChannel) :
  sane h ->
  (forall s, In s (subChannels h) ->
             Forall (fun i => 0 <= startMin i /\ 1 <= endMin i) (intervals s) ->
             Forall (fun i => 0 <= startMin i /\ 1 <= endMin i)
                    (intervals (g s))) ->
  sane (withSubChannels h (map g (subChannels h))).
Proof.
  intros [Htot Hall] Hg. split; [exact Htot|]. simpl.
  rewrite List.Forall_forall in *. intros x Hx.
  apply in_map_iff in Hx. destruct Hx as (s & <- & Hs).
  apply (Hg s Hs (Hall s Hs)).
Qed.

Lemma sane_intervals_map (ivs : list TimelineInterval)
    (k : TimelineInterval -> TimelineInterval) :
  Forall (fun i => 0 <= startMin i /\ 1 <= endMin i) ivs ->
  (forall i, In i ivs -> 0 <= startMin i /\ 1 <= endMin i ->
             0 <= startMin (k i) /\ 1 <= endMin (k i)) ->
  Forall (fun i => 0 <= startMin i /\ 1 <= endMin i) (map k ivs).
Proof.
  intros Hall Hk. rewrite List.Forall_forall in *. intros x Hx.
  apply in_map_iff in Hx. destruct Hx as (i & <- & Hi).
  apply (Hk i Hi (Hall i Hi)).
Qed.

Lemma sane_filter {A : Type} (P : A -> Prop) (p : A -> bool) (l : list A) :
  Forall P l -> Forall P (List.filter p l).
Proof.
  intros Hall. rewrite List.Forall_forall in *. intros x Hx.
  apply filter_In in Hx. apply Hall. apply Hx.
Qed.

Lemma sane_lastEnd (ivs : list TimelineInterval) :
  Forall (fun i => 0 <= startMin i /\ 1 <= endMin i) ivs ->
  0 <= lastEnd ivs.
Proof.
  intros Hall. unfold lastEnd.
  destruct (last ivs) as [i|] eqn:E; [|lia].
  apply last_In in E. rewrite List.Forall_forall in Hall.
  destruct (Hall i E). lia.
Qed.

Lemma sane_rendered (hs : list ImportHeadChannel) (i j k : nat)
    (head : ImportHeadChannel) (sub : ImportSubChannel)
    (interval : TimelineInterval) :
  Forall sane hs ->
  rendered hs i j k = Some (head, sub, interval) ->
  0 <= startMin interval /\ 1 <= endMin interval.
Proof.
  intros Hall Hr. apply rendered_Some in Hr. destruct Hr as (Hh & Hs & Hi).
  apply nth_error_In in Hh, Hs, Hi.
  rewrite List.Forall_forall in Hall. destruct (Hall head Hh) as [_ Hsubs].
  rewrite List.Forall_forall in Hsubs. specialize (Hsubs sub Hs).
  rewrite List.Forall_forall in Hsubs. apply (Hsubs interval Hi).
Qed.

Lemma handle_sane (hs : list ImportHeadChannel) (e : Event) :
  Forall sane hs -> Forall sane (handle hs e).
Proof.
  intros Hall. destruct e; simpl.
  - (* AddHead *)
    unfold addHeadChannel. apply Forall_app. split; [exact Hall|].
    repeat constructor. simpl. lia.
  - (* DeleteHead *)
    apply sane_filter. exact Hall.
  - (* RenameHead *)
    unfold updateHeadChannel. apply sane_heads_map; [exact Hall|].
    intros h _ Hh. destruct (String.eqb (head_id h) headId); [|exact Hh].
    destruct h. exact Hh.
  - (* EditTotalMinutes *)
    destruct (nth_error hs i) as [head|]; [|exact Hall].
    unfold onChangeTotalMinutes, updateHeadChannel.
    apply sane_heads_map; [exact Hall|].
    intros h _ [Htot Hsubs].
    destruct (String.eqb (head_id h) (head_id head)); [|split; assumption].
    split; [simpl; lia | exact Hsubs].
  - (* ToggleHead *)
    unfold toggleHeadExpand. apply sane_heads_map; [exact Hall|].
    intros h _ Hh. destruct (String.eqb (head_id h) headId); exact Hh.
  - (* AddSub *)
    unfold addSubChannel. apply sane_heads_map; [exact Hall|].
    intros h _ [Htot Hsubs].
    destruct (String.eqb (head_id h) headId); simpl; [|split; assumption].
    split; [exact Htot|]. simpl. apply Forall_app. split; [exact Hsubs|].
    repeat constructor.
  - (* DeleteSub *)
    unfold deleteSubChannel. apply sane_heads_map; [exact Hall|].
    intros h _ [Htot Hsubs].
    destruct (String.eqb (head_id h) headId); simpl; [|split; assumption].
    split; [exact Htot|]. simpl. apply sane_filter. exact Hsubs.
  - (* RenameSub *)
    unfold updateSubChannel. apply sane_heads_map; [exact Hall|].
    intros h _ Hh. destruct (String.eqb (head_id h) headId); simpl;
      [|exact Hh].
    apply sane_subs_map; [exact Hh|].
    intros s _ Hs. destruct (String.eqb (sub_id s) subId); exact Hs.
  - (* ToggleSub *)
    unfold toggleSubExpand. apply sane_heads_map; [exact Hall|].
    intros h _ Hh. destruct (String.eqb (head_id h) headId); simpl;
      [|exact Hh].
    apply sane_subs_map; [exact Hh|].
    intros s _ Hs. destruct (String.eqb (sub_id s) subId); exact Hs.
  - (* AddInterval *)
    unfold addInterval. apply sane_heads_map; [exact Hall|].
    intros h _ Hh. destruct (String.eqb (head_id h) headId); simpl;
      [|exact Hh].
    apply sane_subs_map; [exact Hh|].
    intros s _ Hs. destruct (String.eqb (sub_id s) subId); simpl;
      [|exact Hs].
    apply Forall_app. split; [exact Hs|].
    pose proof (sane_lastEnd _ Hs). destruct Hh as [Htot _].
    repeat constructor; simpl; lia.
  - (* DeleteInterval *)
    unfold deleteInterval. apply sane_heads_map; [exact Hall|].
    intros h _ Hh. destruct (String.eqb (head_id h) headId); simpl;
      [|exact Hh].
    apply sane_subs_map; [exact Hh|].
    intros s _ Hs. destruct (String.eqb (sub_id s) subId); simpl;
      [|exact Hs].
    apply sane_filter. exact Hs.
  - (* EditStartMin *)
    destruct (rendered hs i j k) as [[[head sub] interval]|] eqn:Er;
      [|exact Hall].
    unfold onChangeStartMin, updateInterval.
    apply sane_heads_map; [exact Hall|].
    intros h _ Hh. destruct (String.eqb (head_id h) (head_id head)); simpl;
      [|exact Hh].
    apply sane_subs_map; [exact Hh|].
    intros s _ Hs. destruct (String.eqb (sub_id s) (sub_id sub)); simpl;
      [|exact Hs].
    apply sane_intervals_map; [exact Hs|].
    intros iv _ [H0 H1].
    destruct (String.eqb (iv_id iv) (iv_id interval)); simpl; lia.
  - (* EditEndMin *)
    destruct (rendered hs i j k) as [[[head sub] interval]|] eqn:Er;
      [|exact Hall].
    destruct (sane_rendered hs i j k head sub interval Hall Er) as [Hs0 _].
    pose proof (double_positive (startMin interval + 1) ltac:(lia)) as Hd.
    unfold onChangeEndMin, updateInterval.
    apply sane_heads_map; [exact Hall|].
    intros h _ Hh. destruct (String.eqb (head_id h) (head_id head)); simpl;
      [|exact Hh].
    apply sane_subs_map; [exact Hh|].
    intros s _ Hs. destruct (String.eqb (sub_id s) (sub_id sub)); simpl;
      [|exact Hs].
    apply sane_intervals_map; [exact Hs|].
    intros iv _ [H0 H1].
    destruct (String.eqb (iv_id iv) (iv_id interval)); simpl; lia.
Qed.

(** X17: whatever the user does, starting from the empty builder, and whatever
    ids are generated: every head's total stays at least 1, every interval
    starts at 0 or later and ends at 1 or later. *)
Theorem every_run_keeps_minutes_sane :
  forall events : list Event, Forall sane (run [] events).
Proof.
  intros events. unfold run.
  assert (Hgen : forall hs, Forall sane hs ->
                            Forall sane (fold_left handle events hs)).
  { induction events as [|e rest IH]; intros hs Hs; simpl; [exact Hs|].
    apply IH. apply handle_sane. exact Hs. }
  apply Hgen. constructor.
Qed.

(** *** The other two edit fields *)

(** X18: editing the start field of a rendered interval whose end has a
    magnitude below 2^53 stores [max 0 (min v (endMin - 1))], [v] being the
    parsed integer or 0 when the field does not parse, and leaves the end
    and the id as they were: the stored start is never negative and, for
    an interval ending at 1 or later, at least one minute before the
    end. *)
Theorem onChangeStartMin_clamps :
  forall (hs : list ImportHeadChannel) (i j k : nat)
         (head : ImportHeadChannel) (sub : ImportSubChannel)
         (interval : TimelineInterval) (parsed : option Z),
    rendered hs i j k = Some (head, sub, interval) ->
    Z.abs (endMin interval) < exactUpTo ->
    exists (head' : ImportHeadChannel) (sub' : ImportSubChannel)
           (interval' : TimelineInterval),
      rendered (onChangeStartMin hs head sub interval parsed) i j k
      = Some (head', sub', interval')
      /\ startMin interval'
         = Z.max 0 (Z.min (default 0 parsed) (endMin interval - 1))
      /\ endMin interval' = endMin interval
      /\ iv_id interval' = iv_id interval
      /\ 0 <= startMin interval'
      /\ (1 <= endMin interval -> startMin interval' + 1 <= endMin interval').
Proof.
  intros hs i j k head sub interval parsed Hr Hexact.
  apply rendered_Some in Hr. destruct Hr as (Hh & Hs & Hi).
  unfold onChangeStartMin, updateInterval, rendered.
  rewrite nth_error_map, Hh. cbn [option_map].
  rewrite String.eqb_refl. cbn [negb withSubChannels subChannels].
  rewrite nth_error_map, Hs. cbn [option_map].
  rewrite String.eqb_refl. cbn [negb withIntervals intervals].
  rewrite nth_error_map, Hi. cbn [option_map].
  rewrite String.eqb_refl.
  rewrite double_exact by lia.
  eexists. eexists. eexists. split; [reflexivity|].
  cbn. split; [|repeat split; try reflexivity; lia].
  destruct parsed as [[| |]|]; reflexivity.
Qed.

Lemma onChangeStartMin_clamps_witness :
  exists (head' : ImportHeadChannel) (sub' : ImportSubChannel)
         (interval' : TimelineInterval),
    rendered
      (onChangeStartMin
         [mkHead "h" "Head 1" 60
                 [mkSub "s" "Sub 1" [mkInterval "i" 10 15] true] true]
         (mkHead "h" "Head 1" 60
                 [mkSub "s" "Sub 1" [mkInterval "i" 10 15] true] true)
         (mkSub "s" "Sub 1" [mkInterval "i" 10 15] true)
         (mkInterval "i" 10 15) (Some 40))
      0 0 0
    = Some (head', sub', interval')
    /\ startMin interval' = 14.
Proof.
  assert (Hexact : Z.abs (endMin (mkInterval "i" 10 15)) < exactUpTo).
  { unfold exactUpTo. simpl. lia. }
  destruct (onChangeStartMin_clamps
              [mkHead "h" "Head 1" 60
                      [mkSub "s" "Sub 1" [mkInterval "i" 10 15] true] true]
              0 0 0
              (mkHead "h" "Head 1" 60
                      [mkSub "s" "Sub 1" [mkInterval "i" 10 15] true] true)
              (mkSub "s" "Sub 1" [mkInterval "i" 10 15] true)
              (mkInterval "i" 10 15) (Some 40) eq_refl Hexact)
    as (head' & sub' & interval' & Hr & Hs & _).
  exists head', sub', interval'. split; [exact Hr | exact Hs].
Defined.

(** X19: editing a head's minutes field stores [max 1 v], [v] being the parsed
    integer or 1 when the field does not parse or parses to 0: the total is
    never below 1. Nothing else of the head changes; its sub channels and
    their intervals stay as entered, also those that end after the new
    total. *)
Theorem onChangeTotalMinutes_sets_only_total :
  forall (hs : list ImportHeadChannel) (i : nat) (head : ImportHeadChannel)
         (parsed : option Z),
    nth_error hs i = Some head ->
    exists head' : ImportHeadChannel,
      nth_error (onChangeTotalMinutes hs head parsed) i = Some head'
      /\ totalMinutes head' = Z.max 1 (orElse parsed 1)
      /\ 1 <= totalMinutes head'
      /\ (forall v : Z, parsed = Some v -> totalMinutes head' = Z.max 1 v)
      /\ subChannels head' = subChannels head
      /\ head_id head' = head_id head
      /\ head_name head' = head_name head
      /\ head_expanded head' = head_expanded head.
Proof.
  intros hs i head parsed Hi.
  unfold onChangeTotalMinutes, updateHeadChannel.
  rewrite nth_error_map, Hi. cbn [option_map].
  rewrite String.eqb_refl. eexists. split; [reflexivity|].
  cbn. repeat split; try reflexivity; try lia.
  intros v ->. destruct v; simpl; lia.
Qed.

Lemma onChangeTotalMinutes_sets_only_total_witness :
  exists head' : ImportHeadChannel,
    nth_error
      (onChangeTotalMinutes
         [mkHead "h" "Head 1" 60
                 [mkSub "s" "Sub 1" [mkInterval "i" 0 5] true] true]
         (mkHead "h" "Head 1" 60
                 [mkSub "s" "Sub 1" [mkInterval "i" 0 5] true] true)
         (Some 3))
      0
    = Some head'
    /\ totalMinutes head' = 3
    /\ subChannels head' = [mkSub "s" "Sub 1" [mkInterval "i" 0 5] true].
Proof.
  destruct (onChangeTotalMinutes_sets_only_total
              [mkHead "h" "Head 1" 60
                      [mkSub "s" "Sub 1" [mkInterval "i" 0 5] true] true]
              0
              (mkHead "h" "Head 1" 60
                      [mkSub "s" "Sub 1" [mkInterval "i" 0 5] true] true)
              (Some 3) eq_refl)
    as (head' & Hn & Ht & _ & _ & Hs & _).
  exists head'. split; [exact Hn|]. split; [exact Ht | exact Hs].
Defined.

(** *** Adding intervals one after the other *)

Lemma addInterval_at (hs : list ImportHeadChannel) (i j : nat)
    (head : ImportHeadChannel) (sub : ImportSubChannel) (newId : string) :
  nth_error hs i = Some head ->
  nth_error (subChannels head) j = Some sub ->
  exists (head' : ImportHeadChannel) (sub' : ImportSubChannel),
    nth_error (addInterval hs (head_id head) (sub_id sub) newId) i
    = Some head'
    /\ nth_error (subChannels head') j = Some sub'
    /\ head_id head' = head_id head
    /\ totalMinutes head' = totalMinutes head
    /\ sub_id sub' = sub_id sub
    /\ intervals sub'
       = intervals sub
         ++ [mkInterval newId (lastEnd (intervals sub))
                        (Z.min (lastEnd (intervals sub) + 5)
                               (totalMinutes head))].
Proof.
  intros Hh Hs. unfold addInterval.
  rewrite nth_error_map, Hh. cbn [option_map].
  rewrite String.eqb_refl. cbn [negb].
  eexists. eexists. split; [reflexivity|].
  cbn [withSubChannels subChannels].
  rewrite nth_error_map, Hs. cbn [option_map].
  rewrite String.eqb_refl. cbn [negb].
  split; [reflexivity|]. repeat split; reflexivity.
Qed.

Lemma lastEnd_snoc (ivs : list TimelineInterval) (x : TimelineInterval) :
  lastEnd (ivs ++ [x]) = endMin x.
Proof. unfold lastEnd. rewrite last_snoc. reflexivity. Qed.

Lemma addIntervals_at (ids : list string) :
  forall (hs : list ImportHeadChannel) (i j : nat)
         (head : ImportHeadChannel) (sub : ImportSubChannel),
    nth_error hs i = Some head ->
    nth_error (subChannels head) j = Some sub ->
    lastEnd (intervals sub) <= totalMinutes head ->
    exists (head' : ImportHeadChannel) (sub' : ImportSubChannel),
      nth_error (addIntervals hs (head_id head) (sub_id sub) ids) i
      = Some head'
      /\ nth_error (subChannels head') j = Some sub'
      /\ bounds sub'
         = bounds sub
           ++ map (fun k =>
                     (Z.min (lastEnd (intervals sub) + 5 * Z.of_nat k)
                            (totalMinutes head),
                      Z.min (lastEnd (intervals sub) + 5 * Z.of_nat k + 5)
                            (totalMinutes head)))
                  (seq 0 (length ids)).
Proof.
  induction ids as [|newId ids IH]; intros hs i j head sub Hh Hs Hle.
  - exists head, sub. simpl. rewrite app_nil_r. auto.
  - destruct (addInterval_at hs i j head sub newId Hh Hs)
      as (head1 & sub1 & Hh1 & Hs1 & Hid & Htot & Hsid & Hivs).
    destruct (IH (addInterval hs (head_id head) (sub_id sub) newId)
                 i j head1 sub1 Hh1 Hs1)
      as (head' & sub' & Hh' & Hs' & Hb).
    { rewrite Hivs, lastEnd_snoc, Htot. simpl. lia. }
    rewrite Hid, Hsid in Hh'. unfold addIntervals in *. cbn [fold_left].
    exists head', sub'. split; [exact Hh'|]. split; [exact Hs'|].
    rewrite Hb. unfold bounds at 1. rewrite Hivs, map_app, lastEnd_snoc.
    rewrite Htot. cbn [map startMin endMin length seq].
    rewrite <- app_assoc. f_equal. cbn [app]. f_equal.
    + f_equal; f_equal; lia.
    + rewrite <- seq_shift, map_map. apply map_ext.
      intros k. rewrite Nat2Z.inj_succ. f_equal; lia.
Qed.

Lemma totalActiveMs_bounds (s : ImportSubChannel) :
  totalActiveMs s
  = 60000 * fold_right (fun b acc => (snd b - fst b) + acc) 0 (bounds s).
Proof.
  unfold totalActiveMs, bounds.
  assert (Hgen : forall ivs acc,
             fold_left (fun acc int =>
                          acc + (endMin int - startMin int) * 60 * 1000)
                       ivs acc
             = acc + 60000 * fold_right (fun b acc => (snd b - fst b) + acc) 0
                                        (map (fun i => (startMin i, endMin i))
                                             ivs)).
  { induction ivs as [|x ivs IH]; intros acc; simpl; [lia|].
    rewrite IH. lia. }
  rewrite Hgen. lia.
Qed.

Lemma chained_widths (total : Z) (n : nat) :
  0 <= total ->
  fold_right (fun b acc => (snd b - fst b) + acc) 0 (chained total n)
  = Z.min (5 * Z.of_nat n) total.
Proof.
  intros Htot. unfold chained. induction n as [|n IH].
  - simpl. lia.
  - rewrite seq_S, map_app, fold_right_app. cbn [map fold_right fst snd].
    assert (Hshift : forall l c,
               fold_right (fun (b : Z * Z) acc => (snd b - fst b) + acc) c l
               = fold_right (fun b acc => (snd b - fst b) + acc) 0 l + c).
    { induction l as [|x l IHl]; intros c; simpl; [lia|].
      rewrite IHl. lia. }
    rewrite Hshift, IH. rewrite Nat2Z.inj_succ. simpl. lia.
Qed.

(** X20: pressing "Add Timeline" [n] times on a sub channel that has no interval
    yet gives [n] intervals that follow one another without gap or overlap,
    five minutes each until the head's total is reached and empty from
    there on; together they cover the first [min (5 n) total] minutes. *)
Theorem addIntervals_chain :
  forall (hs : list ImportHeadChannel) (i j : nat)
         (head : ImportHeadChannel) (sub : ImportSubChannel)
         (ids : list string),
    nth_error hs i = Some head ->
    nth_error (subChannels head) j = Some sub ->
    intervals sub = [] ->
    0 <= totalMinutes head ->
    exists (head' : ImportHeadChannel) (sub' : ImportSubChannel),
      nth_error (addIntervals hs (head_id head) (sub_id sub) ids) i
      = Some head'
      /\ nth_error (subChannels head') j = Some sub'
      /\ bounds sub' = chained (totalMinutes head) (length ids)
      /\ totalActiveMs sub'
         = 60000 * Z.min (5 * Z.of_nat (length ids)) (totalMinutes head).
Proof.
  intros hs i j head sub ids Hh Hs Hempty Htot.
  destruct (addIntervals_at ids hs i j head sub Hh Hs)
    as (head' & sub' & Hh' & Hs' & Hb).
  { rewrite Hempty. simpl. exact Htot. }
  assert (Hchain : bounds sub' = chained (totalMinutes head) (length ids)).
  { rewrite Hb. unfold bounds at 1. rewrite Hempty. simpl.
    unfold chained. apply map_ext. intros k. f_equal; f_equal; lia. }
  exists head', sub'. split; [exact Hh'|]. split; [exact Hs'|].
  split; [exact Hchain|].
  rewrite totalActiveMs_bounds, Hchain, chained_widths by exact Htot.
  reflexivity.
Qed.

Lemma addIntervals_chain_witness :
  exists (head' : ImportHeadChannel) (sub' : ImportSubChannel),
    nth_error
      (addIntervals [mkHead "h" "Head 1" 12 [mkSub "s" "Sub 1" [] true] true]
                    "h" "s" ["a"; "b"; "c"; "d"])
      0
    = Some head'
    /\ nth_error (subChannels head') 0 = Some sub'
    /\ bounds sub' = [(0, 5); (5, 10); (10, 12); (12, 12)]
    /\ totalActiveMs sub' = 720000.
Proof.
  destruct (addIntervals_chain
              [mkHead "h" "Head 1" 12 [mkSub "s" "Sub 1" [] true] true]
              0 0
              (mkHead "h" "Head 1" 12 [mkSub "s" "Sub 1" [] true] true)
              (mkSub "s" "Sub 1" [] true) ["a"; "b"; "c"; "d"]
              eq_refl eq_refl eq_refl)
    as (head' & sub' & Hh & Hs & Hb & Ht).
  - simpl. lia.
  - exists head', sub'. repeat split; assumption.
Defined.

End BuilderOps.

(** ** The clock-based builder: clock strings, durations, and the operations *)

Module OClockOps.

Import OClock.

(** Whether the string contains a colon. *)
Fixpoint hasColon (s : string) : bool :=
  match s with
  | EmptyString => false
  | String c rest => Ascii.eqb c ":" || hasColon rest
  end.

Definition withSubChannels (h : ImportHeadChannel)
    (subs : list ImportSubChannel) : ImportHeadChannel :=
  mkHead (head_id h) (head_name h) (headStartTime h) (headEndTime h) subs
         (head_expanded h).

Definition withIntervals (s : ImportSubChannel)
    (ivs : list TimelineInterval) : ImportSubChannel :=
  mkSub (sub_id s) (sub_name s) ivs (sub_expanded s) (isCutoff s).

(** [addSubChannel]: the new sub channel is numbered among the sub channels
    that are not cutoff timers. *)
Definition addSubChannel (headChannels : list ImportHeadChannel)
    (headId newId : string) : list ImportHeadChannel :=
  map (fun h =>
         if negb (String.eqb (head_id h) headId) then h
         else
           let newSub :=
             mkSub newId
                   ("Sub " +:+ pretty (length (List.filter
                                                 (fun s => negb (cutoffFlag s))
                                                 (subChannels h)) + 1)%nat)
                   [] true (Some false) in
           withSubChannels h (subChannels h ++ [newSub]))
      headChannels.

(** [addCutoffTimer] *)
Definition addCutoffTimer (headChannels : list ImportHeadChannel)
    (headId newId : string) : list ImportHeadChannel :=
  map (fun h =>
         if negb (String.eqb (head_id h) headId) then h
         else
           let cutoffCount :=
             length (List.filter cutoffFlag (subChannels h)) in
           let newCutoff :=
             mkSub newId ("Cutoff " +:+ pretty (cutoffCount + 1)%nat)
                   [] true (Some true) in
           withSubChannels h (subChannels h ++ [newCutoff]))
      headChannels.

(** The end of the last interval, or the head's start when there is
    none. *)
Definition lastEnd (h : ImportHeadChannel) (s : ImportSubChannel) : string :=
  match last (intervals s) with
  | Some i => endTime i
  | None => headStartTime h
  end.

(** The interval [addInterval] appends to sub channel [s] of head [h]. *)
Definition newInterval (h : ImportHeadChannel) (s : ImportSubChannel)
    (newId : string) : TimelineInterval :=
  let lastEndMins := timeToMinutes (lastEnd h s) in
  let headEndMins := timeToMinutes (headEndTime h) in
  let newEndMins := nmin (nadd lastEndMins (Int 30)) headEndMins in
  mkInterval newId (lastEnd h s) (minutesToTime newEndMins).

Definition addInterval (headChannels : list ImportHeadChannel)
    (headId subId newId : string) : list ImportHeadChannel :=
  map (fun h =>
         if negb (String.eqb (head_id h) headId) then h
         else
           withSubChannels h
             (map (fun s =>
                     if negb (String.eqb (sub_id s) subId) then s
                     else withIntervals s (intervals s ++ [newInterval h s newId]))
                  (subChannels h)))
      headChannels.

(** *** Clock strings *)

Lemma day_round_trip (m : Z) :
  0 <= m < 1440 -> timeToMinutes (minutesToTime (Int m)) = Int m.
Proof.
  intros Hm.
  pose proof roundTripsBelow_day as Hall.
  unfold roundTripsBelow in Hall. rewrite forallb_forall in Hall.
  specialize (Hall (Z.to_nat m)).
  rewrite Z2Nat.id in Hall by lia.
  specialize (Hall ltac:(apply in_seq; lia)).
  destruct (timeToMinutes (minutesToTime (Int m))) as [|z]; [discriminate|].
  apply Z.eqb_eq in Hall. congruence.
Qed.

Lemma minutesToTime_wraps (m : Z) :
  0 <= m -> minutesToTime (Int m) = minutesToTime (Int (m mod 1440)).
Proof.
  intros Hm. unfold minutesToTime. cbn [nfloordiv nrem].
  pose proof (Z.mod_pos_bound m 1440 ltac:(lia)) as Hr.
  pose proof (Z.div_mod m 1440 ltac:(lia)) as Hdm.
  assert (Hdiv : m / 60 = 24 * (m / 1440) + (m mod 1440) / 60).
  { rewrite Hdm at 1.
    replace (1440 * (m / 1440) + m mod 1440)
      with ((24 * (m / 1440)) * 60 + m mod 1440) by lia.
    rewrite Z.div_add_l by lia. reflexivity. }
  assert (Hsmall : 0 <= (m mod 1440) / 60 < 24).
  { split; [apply Z.div_pos; lia|].
    apply Z.div_lt_upper_bound; lia. }
  assert (Hq : 0 <= m / 60) by (apply Z.div_pos; lia).
  assert (Hh : Z.rem (m / 60) 24 = Z.rem ((m mod 1440) / 60) 24).
  { rewrite !Z.rem_mod_nonneg by lia.
    rewrite Hdiv. rewrite Z.add_comm, Z.mul_comm, Z_mod_plus_full.
    reflexivity. }
  assert (Hmin : Z.rem m 60 = Z.rem (m mod 1440) 60).
  { rewrite !Z.rem_mod_nonneg by lia.
    rewrite Hdm at 1.
    replace (1440 * (m / 1440) + m mod 1440)
      with (m mod 1440 + (24 * (m / 1440)) * 60) by lia.
    apply Z_mod_plus_full. }
  rewrite Hh, Hmin. reflexivity.
Qed.

(** X21: the clock wraps at midnight: for every minute count [m] from 0 to
    below 2^53 (the range in which the division by 60 is exact in
    doubles), converting to a clock string and back gives [m mod 1440], the
    minute of the day; and when [m + 1440] is in that range too, both give
    the same string. *)
Theorem clock_round_trip_wraps_at_midnight :
  forall m : Z,
    0 <= m < exactUpTo ->
    timeToMinutes (minutesToTime (Int m)) = Int (m mod 1440)
    /\ (m + 1440 < exactUpTo ->
        minutesToTime (Int (m + 1440)) = minutesToTime (Int m)).
Proof.
  intros m [Hm _]. split.
  - rewrite minutesToTime_wraps by exact Hm.
    apply day_round_trip. apply Z.mod_pos_bound. lia.
  - intros _. rewrite (minutesToTime_wraps (m + 1440)) by lia.
    rewrite (minutesToTime_wraps m) by exact Hm.
    replace (m + 1440) with (m + 1 * 1440) by lia.
    rewrite Z_mod_plus_full. reflexivity.
Qed.

Lemma clock_round_trip_wraps_at_midnight_witness :
  timeToMinutes (minutesToTime (Int 1500)) = Int 60.
Proof.
  destruct (clock_round_trip_wraps_at_midnight 1500) as [H _].
  - unfold exactUpTo. lia.
  - exact H.
Defined.

Lemma split_no_colon (s : string) :
  hasColon s = false -> split ":" s = [s].
Proof.
  induction s as [|c rest IH]; simpl; intros H; [reflexivity|].
  apply orb_false_iff in H. destruct H as [Hc Hrest].
  rewrite Hc, (IH Hrest). reflexivity.
Qed.

(** X22: a time string without a colon, the empty string of a cleared time field
    included, reads as [NaN], and every duration to or from it is [NaN]:
    the floor at 0 does not catch it. *)
Theorem time_without_colon_is_NaN :
  forall s t : string,
    hasColon s = false ->
    timeToMinutes s = NaN
    /\ getDurationMinutes s t = NaN
    /\ getDurationMinutes t s = NaN.
Proof.
  intros s t Hs.
  assert (Hnan : timeToMinutes s = NaN).
  { unfold timeToMinutes. rewrite (split_no_colon s Hs). reflexivity. }
  split; [exact Hnan|]. unfold getDurationMinutes. rewrite Hnan.
  split; [|reflexivity].
  destruct (timeToMinutes t); reflexivity.
Qed.

Lemma time_without_colon_is_NaN_witness :
  getDurationMinutes EmptyString "14:00" = NaN.
Proof.
  destruct (time_without_colon_is_NaN EmptyString "14:00" eq_refl) as (_ & H & _).
  exact H.
Defined.

(** X23: a duration is never negative: it is [NaN] or a number that is at least
    0; between the clock strings of two minutes of the day [a] and [b] it is
    [max 0 (b - a)], so an end before the start counts as 0. *)
Theorem getDurationMinutes_floor :
  forall (startTime endTime : string) (a b : Z),
    (forall d : Z, getDurationMinutes startTime endTime = Int d -> 0 <= d)
    /\ (0 <= a < 1440 -> 0 <= b < 1440 ->
        getDurationMinutes (minutesToTime (Int a)) (minutesToTime (Int b))
        = Int (Z.max 0 (b - a))).
Proof.
  intros s e a b. split.
  - unfold getDurationMinutes. intros d Hd.
    destruct (nsub (timeToMinutes e) (timeToMinutes s)) as [|z];
      simpl in Hd; [discriminate|].
    inversion Hd. lia.
  - intros Ha Hb. unfold getDurationMinutes.
    rewrite (day_round_trip a Ha), (day_round_trip b Hb). reflexivity.
Qed.

Lemma getDurationMinutes_floor_witness :
  getDurationMinutes (minutesToTime (Int 600)) (minutesToTime (Int 540))
  = Int 0.
Proof.
  destruct (getDurationMinutes_floor EmptyString EmptyString 600 540) as [_ H].
  apply H; lia.
Defined.

(** *** The head summary *)

Lemma nsum_nonneg (l : list num) :
  Forall (fun x => forall d, x = Int d -> 0 <= d) l ->
  forall c : Z, nsum l = Int c -> 0 <= c.
Proof.
  induction l as [|x l IH]; intros Hall c Hc; simpl in Hc.
  - inversion Hc. lia.
  - apply Forall_cons_iff in Hall. destruct Hall as [Hx Hall].
    destruct x as [|a]; [discriminate|].
    destruct (nsum l) as [|b] eqn:El; [discriminate|].
    simpl in Hc. inversion Hc.
    specialize (Hx a eq_refl). specialize (IH Hall b eq_refl). lia.
Qed.

Lemma cutoffDurations_nonneg (head : ImportHeadChannel) :
  Forall (fun x => forall d, x = Int d -> 0 <= d) (cutoffDurations head).
Proof.
  unfold cutoffDurations. apply List.Forall_forall. intros x Hx.
  apply in_flat_map in Hx. destruct Hx as (s & _ & Hx).
  destruct (cutoffFlag s); [|contradiction].
  apply in_map_iff in Hx. destruct Hx as (int & <- & _).
  intros d Hd.
  destruct (nsub (timeToMinutes (endTime int)) (timeToMinutes (startTime int)));
    simpl in Hd; [discriminate|].
  inversion Hd. lia.
Qed.

(** X24: whenever the net minutes of a head are a number, so are its total and
    its cutoff minutes, neither is negative, and the net is the total minus
    the cutoff: cutoff timers can only lower the net, never raise it above
    the total. The net itself is not floored. *)
Theorem netMins_at_most_totalMins :
  forall (head : ImportHeadChannel) (n : Z),
    netMins (getHeadSummary head) = Int n ->
    exists t c : Z,
      totalMins (getHeadSummary head) = Int t
      /\ cutoffMins (getHeadSummary head) = Int c
      /\ 0 <= t /\ 0 <= c /\ n = t - c /\ n <= t.
Proof.
  intros head n Hn.
  pose proof (getHeadSummary_cutoffMins head) as Hcut.
  pose proof (cutoffDurations_nonneg head) as Hnn.
  change (netMins (getHeadSummary head))
    with (nsub (totalMins (getHeadSummary head))
               (cutoffMins (getHeadSummary head))) in Hn.
  destruct (totalMins (getHeadSummary head)) as [|t] eqn:Et; [discriminate|].
  destruct (cutoffMins (getHeadSummary head)) as [|c] eqn:Ec; [discriminate|].
  simpl in Hn. inversion Hn.
  assert (Hc : 0 <= c) by (apply (nsum_nonneg _ Hnn); congruence).
  assert (Ht : 0 <= t).
  { unfold getHeadSummary, getDurationMinutes in Et. cbn [totalMins] in Et.
    destruct (nsub (timeToMinutes (headEndTime head))
                   (timeToMinutes (headStartTime head)));
      simpl in Et; [discriminate|].
    inversion Et. lia. }
  exists t, c. repeat split; try reflexivity; lia.
Qed.

Lemma netMins_at_most_totalMins_witness :
  exists t c : Z,
    totalMins (getHeadSummary
                 (mkHead "h" "Head 1" "07:00" "14:00"
                         [mkSub "c" "Cutoff 1" [mkInterval "i" "12:00" "13:00"]
                                true (Some true)] true))
    = Int t
    /\ 360 <= t.
Proof.
  destruct (netMins_at_most_totalMins
              (mkHead "h" "Head 1" "07:00" "14:00"
                      [mkSub "c" "Cutoff 1" [mkInterval "i" "12:00" "13:00"]
                             true (Some true)] true)
              360 eq_refl)
    as (t & c & Ht & _ & _ & _ & _ & Hle).
  exists t, c. split; [exact Ht | exact Hle].
Defined.

Lemma cutoff_sum (subs : list ImportSubChannel) :
  fold_left (fun acc s => nadd acc (sumIntervals s))
            (List.filter cutoffFlag subs) (Int 0)
  = nsum (map sumIntervals (List.filter cutoffFlag subs)).
Proof. rewrite reduce_nadd. apply nadd_0_l. Qed.

Lemma sumIntervals_empty (s : ImportSubChannel) :
  intervals s = [] -> sumIntervals s = Int 0.
Proof. unfold sumIntervals. intros ->. reflexivity. Qed.

(** X25: adding a sub channel or a cutoff timer changes no head's summary: a new
    channel has no intervals yet. *)
Theorem new_channels_leave_summaries :
  forall (hs : list ImportHeadChannel) (headId newId : string),
    map getHeadSummary (addSubChannel hs headId newId)
    = map getHeadSummary hs
    /\ map getHeadSummary (addCutoffTimer hs headId newId)
       = map getHeadSummary hs.
Proof.
  intros hs headId newId. split.
  - unfold addSubChannel. rewrite map_map. apply map_ext. intros h.
    destruct (String.eqb (head_id h) headId); simpl; [|reflexivity].
    unfold getHeadSummary. simpl.
    rewrite List.filter_app. simpl. rewrite app_nil_r. reflexivity.
  - unfold addCutoffTimer. rewrite map_map. apply map_ext. intros h.
    destruct (String.eqb (head_id h) headId); simpl; [|reflexivity].
    unfold getHeadSummary. simpl.
    rewrite List.filter_app. simpl. rewrite fold_left_app. simpl.
    unfold sumIntervals at 2 4. simpl. rewrite !nadd_0_r. reflexivity.
Qed.

(** *** Adding an interval *)

Lemma clock_addInterval_at (hs : list ImportHeadChannel) (i j : nat)
    (head : ImportHeadChannel) (sub : ImportSubChannel) (newId : string) :
  nth_error hs i = Some head ->
  nth_error (subChannels head) j = Some sub ->
  exists head' : ImportHeadChannel,
    nth_error (addInterval hs (head_id head) (sub_id sub) newId) i
    = Some head'
    /\ headStartTime head' = headStartTime head
    /\ headEndTime head' = headEndTime head
    /\ subChannels head'
       = map (fun s =>
                if negb (String.eqb (sub_id s) (sub_id sub)) then s
                else withIntervals s
                       (intervals s ++ [newInterval head s newId]))
             (subChannels head)
    /\ nth_error (subChannels head') j
       = Some (withIntervals sub
                 (intervals sub ++ [newInterval head sub newId])).
Proof.
  intros Hh Hs. unfold addInterval.
  rewrite nth_error_map, Hh. cbn [option_map].
  rewrite String.eqb_refl. cbn [negb].
  eexists. split; [reflexivity|].
  cbn [withSubChannels subChannels headStartTime headEndTime].
  repeat split; try reflexivity.
  rewrite nth_error_map, Hs. cbn [option_map].
  rewrite String.eqb_refl. reflexivity.
Qed.

(** X26: "Add Timeline" on a rendered sub channel appends one interval that
    starts where the last one ends (at the head's start for the first).
    When that point is minute [e] and the head ends at minute [b] of the
    day, the new interval ends at [min (e + 30) b] and lasts
    [max 0 (min 30 (b - e))] minutes: at most half an hour, never beyond the
    head's end, and nothing once the end is reached. *)
Theorem addInterval_half_hour :
  forall (hs : list ImportHeadChannel) (i j : nat)
         (head : ImportHeadChannel) (sub : ImportSubChannel)
         (newId : string) (e b : Z),
    nth_error hs i = Some head ->
    nth_error (subChannels head) j = Some sub ->
    timeToMinutes (lastEnd head sub) = Int e ->
    timeToMinutes (headEndTime head) = Int b ->
    0 <= e -> 0 <= b < 1440 ->
    exists (head' : ImportHeadChannel) (new : TimelineInterval),
      nth_error (addInterval hs (head_id head) (sub_id sub) newId) i
      = Some head'
      /\ nth_error (subChannels head') j
         = Some (withIntervals sub (intervals sub ++ [new]))
      /\ startTime new = lastEnd head sub
      /\ timeToMinutes (endTime new) = Int (Z.min (e + 30) b)
      /\ getDurationMinutes (startTime new) (endTime new)
         = Int (Z.max 0 (Z.min 30 (b - e))).
Proof.
  intros hs i j head sub newId e b Hh Hs He Hb He0 Hb0.
  destruct (clock_addInterval_at hs i j head sub newId Hh Hs)
    as (head' & Hh' & _ & _ & _ & Hs').
  exists head', (newInterval head sub newId).
  split; [exact Hh'|]. split; [exact Hs'|]. split; [reflexivity|].
  assert (Hend : timeToMinutes (endTime (newInterval head sub newId))
                 = Int (Z.min (e + 30) b)).
  { unfold newInterval. cbn [endTime]. rewrite He, Hb. cbn [nadd nmin].
    apply day_round_trip. lia. }
  split; [exact Hend|].
  unfold getDurationMinutes. rewrite Hend.
  unfold newInterval. cbn [startTime]. rewrite He. simpl. f_equal. lia.
Qed.

Lemma addInterval_half_hour_witness :
  exists (head' : ImportHeadChannel) (new : TimelineInterval),
    nth_error
      (addInterval [mkHead "h" "Head 1" "07:00" "14:00"
                           [mkSub "s" "Sub 1" [mkInterval "i" "07:00" "13:45"]
                                  true (Some false)] true]
                   "h" "s" "n")
      0
    = Some head'
    /\ timeToMinutes (endTime new) = Int 840
    /\ getDurationMinutes (startTime new) (endTime new) = Int 15.
Proof.
  destruct (addInterval_half_hour
              [mkHead "h" "Head 1" "07:00" "14:00"
                      [mkSub "s" "Sub 1" [mkInterval "i" "07:00" "13:45"]
                             true (Some false)] true]
              0 0
              (mkHead "h" "Head 1" "07:00" "14:00"
                      [mkSub "s" "Sub 1" [mkInterval "i" "07:00" "13:45"]
                             true (Some false)] true)
              (mkSub "s" "Sub 1" [mkInterval "i" "07:00" "13:45"]
                     true (Some false))
              "n" 825 840 eq_refl eq_refl eq_refl eq_refl)
    as (head' & new & Hh & _ & _ & He & Hd); try lia.
  exists head', new. repeat split; assumption.
Defined.

Lemma nadd_comm (a b : num) : nadd a b = nadd b a.
Proof. destruct a, b; simpl; try reflexivity. f_equal. lia. Qed.

Lemma nsub_nadd (t c x : num) : nsub t (nadd c x) = nsub (nsub t c) x.
Proof. destruct t, c, x; simpl; try reflexivity. f_equal. lia. Qed.

Lemma sumIntervals_snoc (s : ImportSubChannel) (new : TimelineInterval) :
  sumIntervals (withIntervals s (intervals s ++ [new]))
  = nadd (sumIntervals s) (getDurationMinutes (startTime new) (endTime new)).
Proof. unfold sumIntervals. simpl. rewrite fold_left_app. reflexivity. Qed.

(** With distinct sub channel ids, rewriting the sub channels addressed by
    an id touches only the one with that id: the cutoff sum grows by what a
    cutoff timer gained and is unchanged for another sub channel. *)
Lemma cutoff_sum_after (subs : list ImportSubChannel)
    (sub : ImportSubChannel) (g : ImportSubChannel -> ImportSubChannel)
    (x : num) :
  List.NoDup (map sub_id subs) ->
  In sub subs ->
  cutoffFlag (g sub) = cutoffFlag sub ->
  sumIntervals (g sub) = nadd (sumIntervals sub) x ->
  nsum (map sumIntervals
            (List.filter cutoffFlag
               (map (fun s => if negb (String.eqb (sub_id s) (sub_id sub))
                              then s else g s)
                    subs)))
  = if cutoffFlag sub
    then nadd (nsum (map sumIntervals (List.filter cutoffFlag subs))) x
    else nsum (map sumIntervals (List.filter cutoffFlag subs)).
Proof.
  intros Hnd Hin Hflag Hsum.
  induction subs as [|s0 subs IH]; [contradiction|].
  simpl in Hnd. apply NoDup_cons_iff in Hnd. destruct Hnd as [Hnot Hnd].
  cbn [map List.filter].
  destruct (String.eqb_spec (sub_id s0) (sub_id sub)) as [E|E]; cbn [negb].
  - assert (s0 = sub).
    { destruct Hin as [Hin|Hin]; [exact Hin|].
      exfalso. apply Hnot. rewrite E. apply in_map. exact Hin. }
    subst s0.
    assert (Hrest : map (fun s => if negb (String.eqb (sub_id s) (sub_id sub))
                                  then s else g s) subs = subs).
    { apply map_same. intros s Hs.
      destruct (String.eqb_spec (sub_id s) (sub_id sub)) as [Es|Es];
        [|reflexivity].
      exfalso. apply Hnot. rewrite <- Es. apply in_map. exact Hs. }
    rewrite Hrest, Hflag.
    destruct (cutoffFlag sub); [|reflexivity].
    cbn [map nsum fold_right]. rewrite Hsum.
    rewrite !nadd_assoc. f_equal. apply nadd_comm.
  - destruct Hin as [Hin|Hin]; [subst s0; contradiction|].
    specialize (IH Hnd Hin).
    destruct (cutoffFlag s0); [|exact IH].
    cbn [map nsum fold_right].
    change (fold_right nadd (Int 0)) with nsum. rewrite IH.
    destruct (cutoffFlag sub); [|reflexivity].
    rewrite nadd_assoc. reflexivity.
Qed.

(** X27: in a head whose sub channels have distinct ids, "Add Timeline" on a
    cutoff timer lowers the head's net minutes by exactly the duration of
    the interval it appends, and on any other sub channel leaves the head's
    summary as it was. *)
Theorem addInterval_and_net_minutes :
  forall (hs : list ImportHeadChannel) (i j : nat)
         (head : ImportHeadChannel) (sub : ImportSubChannel)
         (newId : string),
    nth_error hs i = Some head ->
    nth_error (subChannels head) j = Some sub ->
    List.NoDup (map sub_id (subChannels head)) ->
    exists head' : ImportHeadChannel,
      nth_error (addInterval hs (head_id head) (sub_id sub) newId) i
      = Some head'
      /\ totalMins (getHeadSummary head') = totalMins (getHeadSummary head)
      /\ (cutoffFlag sub = true ->
          netMins (getHeadSummary head')
          = nsub (netMins (getHeadSummary head))
                 (getDurationMinutes
                    (startTime (newInterval head sub newId))
                    (endTime (newInterval head sub newId))))
      /\ (cutoffFlag sub = false ->
          getHeadSummary head' = getHeadSummary head).
Proof.
  intros hs i j head sub newId Hh Hs Hnd.
  destruct (clock_addInterval_at hs i j head sub newId Hh Hs)
    as (head' & Hh' & Hst & Hen & Hsubs & _).
  exists head'. split; [exact Hh'|].
  pose proof (cutoff_sum_after (subChannels head) sub
                (fun s => withIntervals s
                            (intervals s ++ [newInterval head s newId]))
                (getDurationMinutes (startTime (newInterval head sub newId))
                                    (endTime (newInterval head sub newId)))
                Hnd (nth_error_In _ _ Hs) eq_refl
                (sumIntervals_snoc sub (newInterval head sub newId)))
    as Hsum.
  cbv beta in Hsum. rewrite <- Hsubs in Hsum.
  unfold getHeadSummary. rewrite Hst, Hen, !cutoff_sum, Hsum.
  cbn [totalMins netMins]. split; [reflexivity|].
  split; intros Hflag; rewrite Hflag.
  - apply nsub_nadd.
  - reflexivity.
Qed.

Lemma addInterval_and_net_minutes_witness :
  exists head' : ImportHeadChannel,
    nth_error
      (addInterval [mkHead "h" "Head 1" "07:00" "14:00"
                           [mkSub "c" "Cutoff 1" [] true (Some true)] true]
                   "h" "c" "n")
      0
    = Some head'
    /\ netMins (getHeadSummary head') = Int 390.
Proof.
  destruct (addInterval_and_net_minutes
              [mkHead "h" "Head 1" "07:00" "14:00"
                      [mkSub "c" "Cutoff 1" [] true (Some true)] true]
              0 0
              (mkHead "h" "Head 1" "07:00" "14:00"
                      [mkSub "c" "Cutoff 1" [] true (Some true)] true)
              (mkSub "c" "Cutoff 1" [] true (Some true))
              "n" eq_refl eq_refl)
    as (head' & Hh & _ & Hnet & _).
  - repeat constructor. simpl. intros [].
  - exists head'. split; [exact Hh|]. rewrite (Hnet eq_refl). reflexivity.
Defined.

End OClockOps.
